(** * magcoordpy: geodetic / centred-dipole coordinate transforms

    A shallow embedding of the numeric core of magcoordpy
    ([igrf_coeffs.py], [helpers.py], [coord_transforms.py]) and the
    properties of its specification.

    Conventions of the embedding.
    - A Python or numpy float is a real number ([R]); arithmetic is exact.
      Rounding exists only where the source calls [np.round]. The reals
      have no [nan] and no [inf]: a division by zero has the value the
      division of [R] gives it, and the statements are read where the
      source divides by a number that is not zero. Where the rounding
      of binary64 decides a property, as for the range of [mlon2mlt],
      the line of the source is evaluated in binary64 ([Float64]).
    - A Python exception is the [Raise] outcome of the [result] monad.
    - The mathematical functions of numpy ([sin], [cos], [arccos],
      [arcsin], [arctan2], [sqrt], [floor], [rint], [round]) are the
      functions of the real numbers they compute.
    - The three coordinate arguments of a transform are sequences of one
      length: they appear as the sequence of their triples, one per
      position.
    - The ellipsoid conversions of pymap3d and the constants obtained from
      it are variables of the development: they belong to another
      package. On arrays they work position by position.
    - Of the logging, the records of [get_coeffs] are modelled; the
      [debug] and [info] records of [coord_transforms.py] are not. *)

From Stdlib Require Import String Ascii.
From Stdlib Require Import Reals RNsatz Lra Lia ZArith Bool Psatz List.
From Stdlib Require PrimFloat SpecFloat FloatOps.
Import ListNotations.

Set Implicit Arguments.

(** ** Python outcomes *)

Inductive py_exn : Type :=
| IndexError
| ValueError
| TypeError.

Inductive result (A : Type) : Type :=
| Ok (a : A)
| Raise (e : py_exn).

Arguments Ok {A} a.
Arguments Raise {A} e.

Definition bind {A B : Type} (r : result A) (k : A -> result B) : result B :=
  match r with
  | Ok a => k a
  | Raise e => Raise e
  end.

Declare Scope py_scope.
Delimit Scope py_scope with py.
Notation "x <- r ;; k" := (bind r (fun x => k))
  (at level 61, r at next level, right associativity) : py_scope.
Notation "' p <- r ;; k" := (bind r (fun x => let p := x in k))
  (at level 61, p pattern, r at next level, right associativity) : py_scope.
Open Scope py_scope.

(** [traverse f l] runs [f] over [l] from left to right and stops at the
    first exception, as a Python loop that appends [f x] for each [x]. *)
Fixpoint traverse {A B : Type} (f : A -> result B) (l : list A) : result (list B) :=
  match l with
  | [] => Ok []
  | x :: l' => y <- f x ;; ys <- traverse f l' ;; Ok (y :: ys)
  end.

(** [l[i]] on a Python list or a one-dimensional numpy array: a negative
    index counts from the end, an index out of range raises. *)
Definition py_index {A : Type} (l : list A) (i : Z) : result A :=
  let n := Z.of_nat (length l) in
  let j := if (i <? 0)%Z then (n + i)%Z else i in
  if ((j <? 0) || (n <=? j))%Z then Raise IndexError
  else match nth_error l (Z.to_nat j) with
       | Some a => Ok a
       | None => Raise IndexError
       end.

(** ** igrf_coeffs.py *)

Module IgrfCoeffs.

(** *** load_coeffs *)

Section Load.

Variable num : Type.
Variable zero : num.
(** [float(x)]: [None] is the ValueError of a token that is no number. *)
Variable float_of_string : string -> option num.

(** The characters [str.split()] separates on, among those of ASCII: a
    coefficient file holds no others. *)
Definition is_space (c : ascii) : bool :=
  let n := nat_of_ascii c in
  ((9 <=? n) && (n <=? 13) || (28 <=? n) && (n <=? 32))%nat.

(** [a.split()]: the maximal runs of characters that are not white space. *)
Fixpoint split_go (s : string) (tok : string) : list string :=
  match s with
  | EmptyString =>
      match tok with EmptyString => [] | _ => [tok] end
  | String c s' =>
      if is_space c then
        match tok with
        | EmptyString => split_go s' EmptyString
        | _ => tok :: split_go s' EmptyString
        end
      else split_go s' (String.append tok (String c EmptyString))
  end.

Definition split (a : string) : list string := split_go a EmptyString.

(** [a[:2] == "g " or a[:2] == "h "] *)
Definition is_coeff_line (a : string) : bool :=
  (String.eqb (substring 0 2 a) "g " || String.eqb (substring 0 2 a) "h ")%bool.

Definition py_float (x : string) : result num :=
  match float_of_string x with
  | Some v => Ok v
  | None => Raise ValueError
  end.

(** The loop over [text]: one row of [gh2arr] per selected line. *)
Definition parse_lines (text : list string) : result (list (list num)) :=
  traverse (fun a => traverse py_float (skipn 3 (split a)))
           (filter is_coeff_line text).

(** [np.array(gh2arr).transpose()]. Rows of unequal length make no
    two-dimensional array: numpy raises ValueError. No row at all gives the
    empty array, whose transpose has length 0. *)
Definition np_transpose (rows : list (list num)) : result (list (list num)) :=
  match rows with
  | [] => Ok []
  | r0 :: _ =>
      let c := length r0 in
      if forallb (fun r => (length r =? c)%nat) rows
      then Ok (map (fun j => map (fun r => nth j r zero) rows) (seq 0 c))
      else Raise ValueError
  end.

(** The body of [for i in range(N)] for one epoch column. *)
Definition emit_epoch (i : nat) (col : list num) : result (list num) :=
  if (i <? 19)%nat
  then traverse (fun j => py_index col (Z.of_nat j)) (seq 0 120)
  else Ok col.

Fixpoint flatten_from (i : nat) (cols : list (list num)) : result (list num) :=
  match cols with
  | [] => Ok []
  | col :: rest =>
      here <- emit_epoch i col ;;
      later <- flatten_from (S i) rest ;;
      Ok (here ++ later)
  end.

(** [load_coeffs] once the lines are parsed. *)
Definition flatten_table (rows : list (list num)) : result (list num) :=
  cols <- np_transpose rows ;;
  gh <- flatten_from 0 cols ;;
  Ok (gh ++ [zero]).

(** [load_coeffs(filename)], on the lines of the file. *)
Definition load_coeffs (text : list string) : result (list num) :=
  rows <- parse_lines text ;;
  flatten_table rows.

(** What the specification says of the flat table, on the parsed table
    [rows] of [ncols] epoch columns: the first 120 rows of each of the
    first 19 columns, then every row of each later column, then one
    closing zero. *)
Definition column (rows : list (list num)) (i : nat) : list num :=
  map (fun r => nth i r zero) rows.

Definition flat_layout (rows : list (list num)) (ncols : nat) : list num :=
  concat (map (fun i => firstn 120 (column rows i)) (seq 0 (Nat.min 19 ncols)))
  ++ concat (map (column rows) (seq 19 (ncols - 19)))
  ++ [zero].

End Load.

(** *** get_coeffs *)

Local Open Scope R_scope.

(** A record of the module's logger: its level and the pieces of the
    message, [Str x] being [str(x)] of a number. *)
Inductive level : Type := ERROR | WARNING.
Inductive piece : Type := Txt (s : string) | Str (x : R).
Definition log_record : Type := (level * list piece)%type.

(** A row of [g] or [h]: [None] is Python's [None]. *)
Definition row : Type := list (option R).
Definition coeffs : Type := (list row * list row)%type.

(** [int(x)] of a float: truncation towards zero. *)
Definition py_int (x : R) : Z := if Rle_dec 0 x then Zfloor x else Zceil x.

(** The variables the branches of [get_coeffs] set for the loop. *)
Record regime : Type := Regime { t : R; tc : R; ll : Z; nmx : nat; nc : Z }.

(** [tc * gh[i] + t * gh[i + nc]] *)
Definition blend (gh : list R) (r : regime) (i : Z) : result R :=
  a <- py_index gh i ;;
  b <- py_index gh (i + nc r) ;;
  Ok (tc r * a + t r * b).

Section Walk.

(** The two loops, over any way [rd] of reading the blended value at an
    index of the flat table. *)
Variable rd : Z -> result R.

(** [for m in range(n + 1)], on [(temp, g[n], h[n])]. *)
Fixpoint walk_m (ms : list nat) (st : Z * row * row) : result (Z * row * row) :=
  match ms with
  | [] => Ok st
  | m :: ms' =>
      let '(temp, gn, hn) := st in
      if negb (m =? 0)%nat then
        vg <- rd temp ;;
        vh <- rd (temp + 1) ;;
        walk_m ms' ((temp + 2)%Z, gn ++ [Some vg], hn ++ [Some vh])
      else
        vg <- rd temp ;;
        walk_m ms' ((temp + 1)%Z, gn ++ [Some vg], hn ++ [None])
  end.

(** [for n in range(nmx + 1)], on [(temp, g, h)]. *)
Fixpoint walk_n (ns : list nat) (st : Z * list row * list row)
  : result (Z * list row * list row) :=
  match ns with
  | [] => Ok st
  | n :: ns' =>
      let '(temp, g, h) := st in
      let g_n := if (n =? 0)%nat then [None] else [] in
      st' <- walk_m (seq 0 (n + 1)) (temp, g_n, []) ;;
      let '(temp', gn, hn) := st' in
      walk_n ns' (temp', g ++ [gn], h ++ [hn])
  end.

End Walk.

Definition out_of_range_log (date : R) : list log_record :=
  [ (ERROR, [Txt "This subroutine will not work with a date of "; Str date]);
    (ERROR, [Txt "Date must be in the range 1900.0 <= date <= 2030.0"]);
    (ERROR, [Txt "On return [], []"]) ].

Definition reduced_accuracy_log (date : R) : list log_record :=
  [ (WARNING, [Txt "This version of the IGRF is intended for use up to 2025.0."]);
    (WARNING, [Txt "values for "; Str date;
               Txt " will be computed but may be of reduced accuracy"]) ].

(** The branches [elif date >= 2020.0] and [else]: what is logged and the
    variables of the loop. *)
Definition select (date : R) : list log_record * regime :=
  if Rge_dec date 2020 then
    ((if Rgt_dec date 2025 then reduced_accuracy_log date else []),
     {| t := date - 2020; tc := 1; ll := 3060 + 195; nmx := 13;
        nc := 13 * (13 + 2) |})
  else
    let t0 := 0.2 * (date - 1900) in
    let ll0 := py_int t0 in
    let t1 := t0 - IZR ll0 in
    if Rlt_dec date 1995 then
      ([], {| t := t1; tc := 1 - t1; ll := (10 * (10 + 2)) * ll0; nmx := 10;
              nc := 10 * (10 + 2) |})
    else
      ([], {| t := t1; tc := 1 - t1;
              ll := 120 * 19 + (13 * (13 + 2)) * py_int (0.2 * (date - 1995));
              nmx := 13; nc := 13 * (13 + 2) |}).

(** [get_coeffs(gh, date)]: the records logged and the outcome. *)
Definition get_coeffs (gh : list R) (date : R) : list log_record * result coeffs :=
  if Rlt_dec date 1900 then (out_of_range_log date, Ok ([], []))
  else if Rgt_dec date 2030 then (out_of_range_log date, Ok ([], []))
  else
    let '(logged, r) := select date in
    (logged,
     st <- walk_n (blend gh r) (seq 0 (nmx r + 1)) ((ll r - 1)%Z, [], []) ;;
     let '(_, g, h) := st in
     Ok (g, h)).

(** [c[n][m]] on the nested lists [get_coeffs] returns. *)
Definition entry (c : list row) (n m : nat) : result (option R) :=
  r <- py_index c (Z.of_nat n) ;;
  py_index r (Z.of_nat m).

(** Where the walk finds the [g] and the [h] value of degree [n] and
    order [m], counted from the value of degree 1 and order 0. *)
Definition g_offset (n m : nat) : Z :=
  (Z.of_nat n * Z.of_nat n - 1 + (if (m =? 0)%nat then 0 else 2 * Z.of_nat m - 1))%Z.
Definition h_offset (n m : nat) : Z :=
  (Z.of_nat n * Z.of_nat n - 1 + 2 * Z.of_nat m)%Z.

(** The value a read yields, 0 standing for a read that raises. *)
Definition value_of (rd : Z -> result R) (i : Z) : R :=
  match rd i with
  | Ok v => v
  | Raise _ => 0
  end.

(** The rows of degree [n] of a walk that starts with [temp = temp0]
    and reads [f i] at index [i]. *)
Definition g_row (f : Z -> R) (temp0 : Z) (n : nat) : row :=
  (if (n =? 0)%nat then [None] else [])
  ++ Some (f (temp0 + Z.of_nat n * Z.of_nat n)%Z)
  :: map (fun m => Some (f (temp0 + Z.of_nat n * Z.of_nat n + 2 * Z.of_nat m - 1)%Z))
         (seq 1 n).
Definition h_row (f : Z -> R) (temp0 : Z) (n : nat) : row :=
  None
  :: map (fun m => Some (f (temp0 + Z.of_nat n * Z.of_nat n + 2 * Z.of_nat m)%Z))
         (seq 1 n).

(** [get_coeffs(gh, date)[0][n][m]] and [get_coeffs(gh, date)[1][n][m]] *)
Definition g_entry (gh : list R) (n m : nat) (date : R) : result (option R) :=
  c <- snd (get_coeffs gh date) ;; entry (fst c) n m.
Definition h_entry (gh : list R) (n m : nat) (date : R) : result (option R) :=
  c <- snd (get_coeffs gh date) ;; entry (snd c) n m.

(** Two outcomes within [eps] of each other: two numbers that differ by
    less than [eps], or [None] twice. *)
Definition within (eps : R) (a b : result (option R)) : Prop :=
  match a, b with
  | Ok (Some v), Ok (Some w) => Rabs (v - w) < eps
  | Ok None, Ok None => True
  | _, _ => False
  end.

(** [F] tends to [F x0] as its argument tends to [x0] from below. *)
Definition continuous_from_below (F : R -> result (option R)) (x0 : R) : Prop :=
  forall eps : R, eps > 0 ->
  exists delta : R, delta > 0 /\
    forall x : R, x0 - delta < x < x0 -> within eps (F x) (F x0).

End IgrfCoeffs.

Open Scope R_scope.

(** ** Values of numpy *)

(** What a caller may pass where the source expects [array_like]: one
    Python value, a Python list, or a one-dimensional [np.ndarray]. For a
    transform the element is a position: the three coordinate arguments
    are sequences of one length and appear here as the sequence of their
    triples. *)
Inductive py (A : Type) : Type :=
| PyScalar (a : A)
| PyList (l : list A)
| NdArray (l : list A).

Arguments PyScalar {A} a.
Arguments PyList {A} l.
Arguments NdArray {A} l.

Definition vec3 : Type := (R * R * R)%type.

(** The shape of a value: a single value, or a sequence and its length. *)
Inductive shape : Type :=
| Single
| Sequence (n : nat).

Definition shape_of {A : Type} (v : py A) : shape :=
  match v with
  | PyScalar _ => Single
  | PyList l => Sequence (length l)
  | NdArray l => Sequence (length l)
  end.

Definition deg2rad (x : R) : R := x * (PI / 180).
Definition rad2deg (x : R) : R := x * (180 / PI).

(** [np.arctan2(y, x)] *)
Definition arctan2 (y x : R) : R :=
  if Rlt_dec 0 x then atan (y / x)
  else if Rlt_dec x 0 then
    if Rle_dec 0 y then atan (y / x) + PI else atan (y / x) - PI
  else if Rlt_dec 0 y then PI / 2
  else if Rlt_dec y 0 then - (PI / 2)
  else 0.

(** [np.rint]: the nearest integer, the even one of two equally near. *)
Definition rint (x : R) : R :=
  let f := Zfloor x in
  if Rlt_dec (x - IZR f) (1 / 2) then IZR f
  else if Rlt_dec (1 / 2) (x - IZR f) then IZR (f + 1)
  else if Z.even f then IZR f else IZR (f + 1).

(** [np.round(x, decimals)] *)
Definition np_round (x : R) (decimals : Z) : R :=
  if (0 <=? decimals)%Z
  then rint (x * 10 ^ Z.to_nat decimals) / 10 ^ Z.to_nat decimals
  else rint (x / 10 ^ Z.to_nat (- decimals)) * 10 ^ Z.to_nat (- decimals).

(** [x % y] of numpy floats, as a real number: the remainder has the
    sign of [y] and lies in [[0, y)] for [y > 0]. What binary64 makes of
    it is [Float64.remainder]. *)
Definition np_mod (x y : R) : R := x - y * IZR (Zfloor (x / y)).

(** An operation of two one-dimensional arrays, with numpy's broadcasting
    of an array of length 1. *)
Definition broadcast2 (f : R -> R -> R) (a b : list R) : result (list R) :=
  match a, b with
  | [x], _ => Ok (map (f x) b)
  | _, [y] => Ok (map (fun x => f x y) a)
  | _, _ =>
      if (length a =? length b)%nat
      then Ok (map (fun xy => f (fst xy) (snd xy)) (combine a b))
      else Raise ValueError
  end.

(** ** Binary64 *)

(** The arithmetic of line 122 of [coord_transforms.py] as numpy carries
    it out, on the binary64 numbers of IEEE 754. The rest of the
    development computes in the real numbers, where that line is
    [np_mod ((180 + m - s) / 15) 24]; what the rounding of binary64
    does to it is read off this module. *)
Module Float64.

Import PrimFloat SpecFloat FloatOps.

Local Open Scope float_scope.

(** C's [fmod]: [x - n * y] for the integer [n] that is [x / y]
    truncated towards zero, computed without rounding; it has the sign
    of [x]. *)
Definition fmod (x y : float) : float :=
  match Prim2SF x, Prim2SF y with
  | S754_nan, _ | _, S754_nan => nan
  | S754_infinity _, _ => nan
  | _, S754_zero _ => nan
  | S754_zero _, _ => x
  | S754_finite _ _ _, S754_infinity _ => x
  | S754_finite sx mx ex, S754_finite _ my ey =>
      let e := Z.min ex ey in
      let X := (Zpos mx * 2 ^ (ex - e))%Z in
      let Y := (Zpos my * 2 ^ (ey - e))%Z in
      let r := (X mod Y)%Z in
      SF2Prim (binary_normalize prec emax (if sx then (- r)%Z else r) e sx)
  end.

(** [x % y] of numpy on float64 ([npy_divmod]): the result of [fmod],
    moved by [y] when it is not zero and its sign is not that of [y];
    a zero takes the sign of [y]. *)
Definition remainder (x y : float) : float :=
  let m := fmod x y in
  if is_zero y then m
  else if is_nan m then m
  else if is_zero m then (if get_sign y then neg_zero else zero)
  else if Bool.eqb (y <? 0) (m <? 0) then m else m + y.

(** Line 122 of [mlon2mlt] for one longitude:
    [(180 + np.float64(mlon_cd) - sslon_cd) / 15 % 24]. *)
Definition mlt (mlon_cd sslon_cd : float) : float :=
  remainder ((180 + mlon_cd - sslon_cd) / 15) 24.

(** [x < y] and [x == y] of two floats. *)
Definition lt (x y : float) : bool := x <? y.
Definition eq (x y : float) : bool := x =? y.

End Float64.

(** ** helpers.py *)

Module Helpers.

(** The fields [subsol] reads of an instant: of a [datetime.datetime]
    the attributes [year], [timetuple().tm_yday], [hour], [minute],
    [second]; of a [datetime64] the same calendar fields of its value. *)
Record datetime : Type := Datetime
  { year : Z; tm_yday : Z; hour : Z; minute : Z; second : Z }.

Definition seconds_of_day (d : datetime) : Z :=
  (hour d * 3600 + minute d * 60 + second d)%Z.

(** [1601 <= year] and [year <= 2100] *)
Definition year_in_range (d : datetime) : bool :=
  ((1601 <=? year d) && (year d <=? 2100))%Z.

(** [nleap], with the correction of the years up to 1900. *)
Definition leap_days (y : Z) : Z :=
  let nleap := (Zfloor ((IZR y - 1601) / 4) - 99)%Z in
  if (y <=? 1900)%Z
  then (nleap + (3 - Zfloor ((IZR y - 1601) / 100)))%Z
  else nleap.

(** The body of [subsol] for one instant: subsolar latitude and
    longitude in degrees. *)
Definition subsol_point (d : datetime) : R * R :=
  let ut := IZR (seconds_of_day d) in
  let doy := IZR (tm_yday d) in
  let yr := IZR (year d - 2000) in
  let nleap := IZR (leap_days (year d)) in
  let l0 := -79.549 + (-0.238699 * (yr - 4 * nleap) + 3.08514e-2 * nleap) in
  let g0 := -2.472 + (-0.2558905 * (yr - 4 * nleap) - 3.79617e-2 * nleap) in
  let df := (ut / 86400 - 1.5) + doy in
  let lmean := l0 + 0.9856474 * df in
  let grad := deg2rad (g0 + 0.9856003 * df) in
  let lmrad := deg2rad (lmean + 1.915 * sin grad + 0.020 * sin (2 * grad)) in
  let sinlm := sin lmrad in
  let epsrad := deg2rad (23.439 - 4e-7 * (df + 365 * yr + nleap)) in
  let alpha := rad2deg (arctan2 (cos epsrad * sinlm) (cos lmrad)) in
  let sslat := rad2deg (asin (sin epsrad * sinlm)) in
  let etdeg0 := lmean - alpha in
  let etdeg := etdeg0 - 360 * rint (etdeg0 / 360) in
  let sslon0 := 180 - (ut / 240 + etdeg) in
  let sslon := sslon0 - 360 * rint (sslon0 / 360) in
  (sslat, sslon).

(** [subsol(datetime)]: a [datetime.datetime] gives two numbers, an array
    of [datetime64] two arrays, anything else raises. *)
Definition subsol (arg : py datetime) : result (py (R * R)) :=
  match arg with
  | PyScalar d =>
      if forallb year_in_range [d]
      then Ok (PyScalar (subsol_point d))
      else Raise ValueError
  | NdArray ds =>
      if forallb year_in_range ds
      then Ok (NdArray (map subsol_point ds))
      else Raise ValueError
  | PyList _ => Raise ValueError
  end.

End Helpers.

(** ** coord_transforms.py *)

Module CoordTransforms.

Import IgrfCoeffs.

Section Transforms.

(** [CONSTS.GH]: the flat table [load_coeffs] made of the coefficient
    file when the package was imported. *)
Variable GH : list R.

(** [CONSTS.RE_M] and [CONSTS.E_SQ]: semimajor axis and squared
    eccentricity of pymap3d's WGS84 ellipsoid. *)
Variable RE_M : R.
Variable E_SQ : R.

(** [pymap3d.geodetic2ecef] and [pymap3d.ecef2geodetic] for one position
    (degrees, degrees, metres); on arrays they work position by
    position. *)
Variable pymap3d_geodetic2ecef : vec3 -> vec3.
Variable pymap3d_ecef2geodetic : vec3 -> vec3.

Definition default_year : R := 2021.
Definition default_ssheight : R := 50 * 6371.

(** [geodetic2ecef(geod_lati_deg, geod_long_deg, geod_alti_m)], the
    module's own conversion, for one position. *)
Definition geodetic2ecef (p : vec3) : vec3 :=
  let '(geod_lati_deg, geod_long_deg, geod_alti_m) := p in
  let geod_long := deg2rad geod_long_deg in
  let geod_lati := deg2rad geod_lati_deg in
  let rho := RE_M * / sqrt (1 - E_SQ * (sin geod_lati) ^ 2) in
  ((rho + geod_alti_m) * cos geod_lati * cos geod_long,
   (rho + geod_alti_m) * cos geod_lati * sin geod_long,
   (rho + geod_alti_m - E_SQ * rho) * sin geod_lati).

(** The value of a coefficient that must be a number: [None] in
    arithmetic is a TypeError. *)
Definition number (x : option R) : result R :=
  match x with
  | Some v => Ok v
  | None => Raise TypeError
  end.

(** [compute_pos_centered_dipole_north_pole(year)]: geocentric colatitude
    and longitude of the dipole pole, in radians. *)
Definition compute_pos_centered_dipole_north_pole (year : R) : result (R * R) :=
  c <- snd (get_coeffs GH year) ;;
  let '(g, h) := c in
  if (length g =? 0)%nat then Raise ValueError
  else
    x10 <- entry g 1 0 ;;
    x11 <- entry g 1 1 ;;
    y11 <- entry h 1 1 ;;
    g_n1_m0 <- number x10 ;;
    g_n1_m1 <- number x11 ;;
    h_n1_m1 <- number y11 ;;
    let b0 := sqrt (g_n1_m0 ^ 2 + g_n1_m1 ^ 2 + h_n1_m1 ^ 2) in
    let geocentric_colat_n := acos (- g_n1_m0 / b0) in
    let geocentric_long_n := arctan2 h_n1_m1 g_n1_m1 - PI in
    Ok (geocentric_colat_n, geocentric_long_n).

(** The base vectors [xx], [yy], [m] of the dipole frame, rows of the
    rotation matrix. *)
Definition base_xx (colat long : R) : vec3 :=
  (cos colat * cos long, cos colat * sin long, - sin colat).
Definition base_yy (long : R) : vec3 :=
  (- sin long, cos long, 0).
Definition base_m (colat long : R) : vec3 :=
  (sin colat * cos long, sin colat * sin long, cos colat).

Definition dot (a b : vec3) : R :=
  let '(a1, a2, a3) := a in
  let '(b1, b2, b3) := b in
  a1 * b1 + a2 * b2 + a3 * b3.

(** One row of [matrix_arrays @ R_geoc_cd.T]: the matrix whose rows are
    [xx], [yy], [m], applied to a vector. *)
Definition rotate_geoc_cd (colat long : R) (v : vec3) : vec3 :=
  (dot (base_xx colat long) v, dot (base_yy long) v, dot (base_m colat long) v).

(** One row of [matrix_arrays @ R_cd_geoc.T]: the transposed matrix,
    whose columns are [xx], [yy], [m], applied to a vector. *)
Definition rotate_cd_geoc (colat long : R) (v : vec3) : vec3 :=
  let '(xx1, xx2, xx3) := base_xx colat long in
  let '(yy1, yy2, yy3) := base_yy long in
  let '(m1, m2, m3) := base_m colat long in
  (dot (xx1, yy1, m1) v, dot (xx2, yy2, m2) v, dot (xx3, yy3, m3) v).

(** The first lines of [ecef2eccdf], [eccdf2ecef] and [geodetic2cd]: a
    list becomes an array, an array stays, anything else becomes an array
    of one element. *)
Definition as_arrays {A : Type} (v : py A) : list A :=
  match v with
  | PyList l => l
  | NdArray l => l
  | PyScalar a => [a]
  end.

(** [ecef2eccdf(x_geoc, y_geoc, z_geoc, year)] *)
Definition ecef2eccdf (geoc : py vec3) (year : R) : result (list vec3) :=
  let arrays := as_arrays geoc in
  pole <- compute_pos_centered_dipole_north_pole year ;;
  let '(geoc_colat_n, geoc_long_n) := pole in
  Ok (map (rotate_geoc_cd geoc_colat_n geoc_long_n) arrays).

(** [ecef2spherical(x, y, z, decimals)] for one position: colatitude and
    longitude in degrees and the radius, each rounded. At the origin the
    source divides [z] by the radius 0: statements about the angles are
    made for positions of a positive radius. *)
Definition ecef2spherical (decimals : Z) (v : vec3) : vec3 :=
  let '(x, y, z) := v in
  let r := sqrt (x * x + y * y + z * z) in
  let colat := np_round (rad2deg (acos (z / r))) decimals in
  let long := np_round (rad2deg (arctan2 y x)) decimals in
  (colat, long, np_round r decimals).

(** [spherical2ecef(colat, long, r)] for one position, angles in
    radians. *)
Definition spherical2ecef (s : vec3) : vec3 :=
  let '(colat_geoc, long_geoc, radial_dist_geoc) := s in
  (radial_dist_geoc * sin colat_geoc * cos long_geoc,
   radial_dist_geoc * sin colat_geoc * sin long_geoc,
   radial_dist_geoc * cos colat_geoc).

(** The last lines of [geodetic2cd] for one position: [ecef2spherical]
    with its default [decimals=2], then latitude and altitude. *)
Definition cd_of_cartesian (decimals : Z) (v : vec3) : vec3 :=
  let '(colat_cd, long_cd, r_cd) := ecef2spherical 2 v in
  (np_round (90 - colat_cd) decimals, long_cd, np_round (r_cd - RE_M) decimals).

(** [pymap3d.geodetic2ecef(gglat_deg_array, gglon_deg_array,
    ggalt_km_array * 1000.0)] for one position. *)
Definition ecef_of_geodetic_km (p : vec3) : vec3 :=
  let '(gglat, gglon, ggalt_km) := p in
  pymap3d_geodetic2ecef (gglat, gglon, ggalt_km * 1000).

(** [geodetic2cd(gglat_deg_array, gglon_deg_array, ggalt_km_array,
    decimals, year)] *)
Definition geodetic2cd (gg : py vec3) (decimals : Z) (year : R) : result (list vec3) :=
  let arrays := as_arrays gg in
  let geoc := map ecef_of_geodetic_km arrays in
  cd <- ecef2eccdf (NdArray geoc) year ;;
  Ok (map (cd_of_cartesian decimals) cd).

(** [eccdf2ecef(x_cd, y_cd, z_cd, year)] *)
Definition eccdf2ecef (cd : py vec3) (year : R) : result (list vec3) :=
  let arrays := as_arrays cd in
  pole <- compute_pos_centered_dipole_north_pole year ;;
  let '(geoc_colat_n, geoc_long_n) := pole in
  Ok (map (rotate_cd_geoc geoc_colat_n geoc_long_n) arrays).

(** The first lines of [cd2geodetic] for one position: colatitude,
    radial distance, and the Cartesian coordinates in the dipole frame. *)
Definition cartesian_of_cd (p : vec3) : vec3 :=
  let '(lat_cd, lon_cd, alt_cd) := p in
  let colat_cd := 90 - lat_cd in
  let rad_distance := alt_cd + RE_M in
  spherical2ecef (deg2rad colat_cd, deg2rad lon_cd, rad_distance).

Definition round3 (decimals : Z) (p : vec3) : vec3 :=
  let '(a, b, c) := p in
  (np_round a decimals, np_round b decimals, np_round c decimals).

(** [cd2geodetic(lat_cd_arr, lon_cd_arr, alt_cd_arr, decimals, year)].
    [90 - lat_cd_arr] is a TypeError on a Python list. *)
Definition cd2geodetic (cd : py vec3) (decimals : Z) (year : R) : result (list vec3) :=
  cart <-
    match cd with
    | PyList _ => Raise TypeError
    | PyScalar p => Ok (PyScalar (cartesian_of_cd p))
    | NdArray ps => Ok (NdArray (map cartesian_of_cd ps))
    end ;;
  geoc <- eccdf2ecef cart year ;;
  Ok (map (fun v => round3 decimals (pymap3d_ecef2geodetic v)) geoc).


(** The geocentric distance of a point. *)
Definition norm (v : vec3) : R :=
  let '(x, y, z) := v in sqrt (x * x + y * y + z * z).

(** [float(x)] of what [subsol] returned: an array converts only when it
    has one element. *)
Definition to_float {A : Type} (v : py A) : result A :=
  match v with
  | PyScalar a => Ok a
  | NdArray [a] => Ok a
  | _ => Raise TypeError
  end.

(** [mlon2mlt(mlon_cd, datetime, ssheight)] *)
Definition mlon2mlt (mlon_cd : py R) (datetime : py Helpers.datetime) (ssheight : R)
  : result (list R) :=
  ss <- Helpers.subsol datetime ;;
  ss_geo <- to_float ss ;;
  let '(sslat_geo, sslon_geo) := ss_geo in
  ss_cd <- geodetic2cd (PyScalar (sslat_geo, sslon_geo, ssheight)) 2 default_year ;;
  let sslon_cd := map (fun c => snd (fst c)) ss_cd in
  let mlt := fun m s => np_mod ((180 + m - s) / 15) 24 in
  match mlon_cd with
  | PyScalar m => Ok (map (mlt m) sslon_cd)
  | PyList ms => broadcast2 mlt ms sslon_cd
  | NdArray ms => broadcast2 mlt ms sslon_cd
  end.

End Transforms.

End CoordTransforms.

(** ** Inputs *)

(** The value [v] with [f] applied to its elements, as [v + 360] on an
    array. *)
Definition py_map {A B : Type} (f : A -> B) (v : py A) : py B :=
  match v with
  | PyScalar a => PyScalar (f a)
  | PyList l => PyList (map f l)
  | NdArray l => NdArray (map f l)
  end.

(** The number of elements of an array of the given shape, a single
    value counting as an array of one element. *)
Definition elements (s : shape) : nat :=
  match s with
  | Single => 1
  | Sequence n => n
  end.

(** [t] is one instant [d] that [mlon2mlt] accepts: a [datetime], or an
    array that holds one [datetime64], of a year from 1601 to 2100. *)
Definition an_instant (t : py Helpers.datetime) (d : Helpers.datetime) : Prop :=
  (t = PyScalar d \/ t = NdArray [d]) /\ Helpers.year_in_range d = true.

(** The distance between two points. *)
Definition distance (a b : vec3) : R :=
  CoordTransforms.norm
    (fst (fst a) - fst (fst b), snd (fst a) - snd (fst b), snd a - snd b)%R.



(** ** Example data *)

Module Examples.

(** A coefficient file: a header and 120 lines of 20 values. *)
Definition header : string := "# 13th Generation International Geomagnetic Reference Field".
Definition line : string := "g  1  0  1 2 3 4 5 6 7 8 9 0 1 2 3 4 5 6 7 8 9 0".
Definition text : list string := header :: repeat line 120.

(** [float] on the tokens of the example file. *)
Definition digit (x : string) : option Z :=
  match x with
  | String c EmptyString =>
      let n := nat_of_ascii c in
      if ((48 <=? n) && (n <=? 57))%nat then Some (Z.of_nat (n - 48)) else None
  | _ => None
  end.

Definition parsed_row : list Z := [1; 2; 3; 4; 5; 6; 7; 8; 9; 0; 1; 2; 3; 4; 5; 6; 7; 8; 9; 0]%Z.
Definition parsed : list (list Z) := repeat parsed_row 120.

(** A flat table of the length of the one of the package, its entry at
    index [i] being [i + 1]. *)
Definition table : list R := map (fun i => IZR (Z.of_nat (S i))) (seq 0 3646).

(** The semimajor axis of WGS84 in metres. *)
Definition RE_M : R := 6378137.

(** The squared eccentricity of WGS84. *)
Definition E_SQ : R := 0.00669437999014.

(** A stand-in for [pymap3d.ecef2geodetic] where its values do not
    matter. *)
Definition same_point (p : vec3) : vec3 := p.

(** Noon of 9 December 2021, the instant of the package tests. *)
Definition noon : Helpers.datetime :=
  {| Helpers.year := 2021; Helpers.tm_yday := 343;
     Helpers.hour := 12; Helpers.minute := 0; Helpers.second := 0 |}.

(** A coefficient file of the shape of the one of the package: 195
    lines of 26 values, the epochs 1900 to 2020 and the secular
    variation. *)
Definition wide_line : string :=
  "g  1  0  1 2 3 4 5 6 7 8 9 0 1 2 3 4 5 6 7 8 9 0 1 2 3 4 5 6".
Definition wide_text : list string := header :: repeat wide_line 195.

(** [float] on the tokens of that file, as a real number. *)
Definition real_digit (x : string) : option R := option_map IZR (digit x).

Definition wide_row : list R :=
  map IZR [1; 2; 3; 4; 5; 6; 7; 8; 9; 0; 1; 2; 3; 4; 5; 6; 7; 8; 9; 0;
           1; 2; 3; 4; 5; 6]%Z.
Definition wide_rows : list (list R) := repeat wide_row 195.

(** A line whose last token is no number. *)
Definition bad_line : string := "g  1  0  1 2 x".

(** The first day of the year 1600, before the years [subsol] takes. *)
Definition too_early : Helpers.datetime :=
  {| Helpers.year := 1600; Helpers.tm_yday := 1;
     Helpers.hour := 0; Helpers.minute := 0; Helpers.second := 0 |}.

(** A conversion pair of the standard form on a sphere of radius [RE_M]:
    [geodetic2ecef RE_M 0] and its inverse, latitude and longitude in
    degrees and the height above the sphere. *)
Definition sphere_ecef2geodetic (v : vec3) : vec3 :=
  let '(x, y, z) := v in
  let r := sqrt (x * x + y * y + z * z) in
  (90 - rad2deg (acos (z / r)), rad2deg (arctan2 y x), r - RE_M)%R.

End Examples.

(** * Properties *)

Unset Implicit Arguments.

(** ** The result monad and indexing *)

Lemma bind_ok {A B : Type} (r : result A) (k : A -> result B) (b : B) :
  bind r k = Ok b -> exists a, r = Ok a /\ k a = Ok b.
Proof.
  destruct r as [a|e]; simpl; intros H; [eauto | discriminate].
Qed.

Lemma py_index_nat {A : Type} (l : list A) (i : nat) (d : A) :
  (i < length l)%nat -> py_index l (Z.of_nat i) = Ok (nth i l d).
Proof.
  intros Hi. unfold py_index.
  destruct (Z.ltb_spec (Z.of_nat i) 0); [lia|].
  destruct (Z.ltb_spec (Z.of_nat i) 0); [lia|].
  destruct (Z.leb_spec (Z.of_nat (length l)) (Z.of_nat i)); [lia|].
  simpl. rewrite Nat2Z.id.
  rewrite (nth_error_nth' l d Hi). reflexivity.
Qed.

Lemma py_index_Z {A : Type} (l : list A) (i : Z) (d : A) :
  (0 <= i < Z.of_nat (length l))%Z -> py_index l i = Ok (nth (Z.to_nat i) l d).
Proof.
  intros Hi. rewrite <- (Z2Nat.id i) at 1 by lia.
  apply py_index_nat. lia.
Qed.

(** [gh[-1]] is the last element. *)
Lemma py_index_minus_one {A : Type} (l : list A) (d : A) :
  l <> [] -> py_index l (-1) = Ok (nth (length l - 1) l d).
Proof.
  intros Hl. unfold py_index.
  assert (0 < length l)%nat by (destruct l; simpl; [congruence | lia]).
  change (-1 <? 0)%Z with true. cbv iota.
  destruct (Z.ltb_spec (Z.of_nat (length l) + -1) 0); [lia|].
  destruct (Z.leb_spec (Z.of_nat (length l)) (Z.of_nat (length l) + -1)); [lia|].
  simpl.
  replace (Z.to_nat (Z.of_nat (length l) + -1)) with (length l - 1)%nat by lia.
  rewrite (nth_error_nth' l d) by lia.
  reflexivity.
Qed.

Lemma py_index_ok_inv {A : Type} (l : list A) (i : Z) (a : A) :
  py_index l i = Ok a -> exists j, (j < length l)%nat /\ nth_error l j = Some a.
Proof.
  unfold py_index.
  destruct (_ || _)%bool; [discriminate|].
  destruct (nth_error l _) eqn:E; [|discriminate].
  intros H; inversion H; subst.
  eexists; split; [|exact E].
  apply nth_error_Some. congruence.
Qed.

(** ** load_coeffs *)

Section LoadFacts.

Import IgrfCoeffs.

Variable num : Type.
Variable zero : num.
Variable float_of_string : string -> option num.

Lemma firstn_skipn_step (col : list num) (k a : nat) :
  (a < length col)%nat ->
  firstn (S k) (skipn a col) = nth a col zero :: firstn k (skipn (S a) col).
Proof.
  revert a. induction col as [|x col IH]; intros a Ha; simpl in Ha; [lia|].
  destruct a as [|a]; [reflexivity|].
  change (skipn (S a) (x :: col)) with (skipn a col).
  change (skipn (S (S a)) (x :: col)) with (skipn (S a) col).
  change (nth (S a) (x :: col) zero) with (nth a col zero).
  apply IH. lia.
Qed.

Lemma traverse_index_range (col : list num) (k a : nat) :
  (a + k <= length col)%nat ->
  traverse (fun j => py_index col (Z.of_nat j)) (seq a k) = Ok (firstn k (skipn a col)).
Proof.
  revert a. induction k as [|k IH]; intros a Hlen.
  - reflexivity.
  - cbn [seq traverse].
    rewrite (py_index_nat col _ zero) by lia. cbn [bind].
    rewrite IH by lia. cbn [bind].
    rewrite firstn_skipn_step by lia. reflexivity.
Qed.

Lemma emit_epoch_spec (i : nat) (col : list num) :
  (120 <= length col)%nat ->
  emit_epoch i col = Ok (if (i <? 19)%nat then firstn 120 col else col).
Proof.
  intros Hlen. unfold emit_epoch.
  destruct (i <? 19)%nat; [|reflexivity].
  rewrite traverse_index_range by (simpl; lia). reflexivity.
Qed.

Lemma flatten_from_spec (f : nat -> list num) (n i : nat) :
  (forall k, 120 <= length (f k))%nat ->
  flatten_from i (map f (seq i n))
  = Ok (concat (map (fun k => if (k <? 19)%nat then firstn 120 (f k) else f k)
                    (seq i n))).
Proof.
  intros Hlen. revert i. induction n as [|n IH]; intros i; simpl.
  - reflexivity.
  - rewrite emit_epoch_spec by apply Hlen. simpl.
    rewrite IH. reflexivity.
Qed.

Lemma np_transpose_spec (rows : list (list num)) (ncols : nat) :
  rows <> [] ->
  Forall (fun r => length r = ncols) rows ->
  np_transpose zero rows = Ok (map (column zero rows) (seq 0 ncols)).
Proof.
  intros Hne Hrect. unfold np_transpose.
  destruct rows as [|r0 rest]; [congruence|].
  assert (H0 : length r0 = ncols) by (inversion Hrect; assumption).
  rewrite H0.
  replace (forallb _ (r0 :: rest)) with true; [reflexivity|].
  symmetry. apply forallb_forall. intros r Hr.
  rewrite Forall_forall in Hrect. apply Nat.eqb_eq. auto.
Qed.

(** The columns the loop treats as epochs up to 1990 and the later ones,
    separately. *)
Lemma split_epochs (f : nat -> list num) (ncols : nat) :
  concat (map (fun k => if (k <? 19)%nat then firstn 120 (f k) else f k) (seq 0 ncols))
  = concat (map (fun i => firstn 120 (f i)) (seq 0 (Nat.min 19 ncols)))
    ++ concat (map f (seq 19 (ncols - 19))).
Proof.
  assert (Hsplit : seq 0 ncols
                   = seq 0 (Nat.min 19 ncols) ++ seq (Nat.min 19 ncols) (ncols - Nat.min 19 ncols)).
  { rewrite <- seq_app. f_equal. lia. }
  rewrite Hsplit, map_app, concat_app. f_equal.
  - f_equal. apply map_ext_in. intros k Hk. apply in_seq in Hk.
    destruct (Nat.ltb_spec k 19); [reflexivity | lia].
  - destruct (Nat.le_gt_cases ncols 19) as [Hle|Hgt].
    + replace (ncols - Nat.min 19 ncols)%nat with 0%nat by lia.
      replace (ncols - 19)%nat with 0%nat by lia. reflexivity.
    + replace (Nat.min 19 ncols) with 19%nat by lia.
      f_equal. apply map_ext_in. intros k Hk. apply in_seq in Hk.
      destruct (Nat.ltb_spec k 19); [lia | reflexivity].
Qed.

Lemma flatten_table_layout (rows : list (list num)) (ncols : nat) :
  (120 <= length rows)%nat ->
  Forall (fun r => length r = ncols) rows ->
  flatten_table zero rows = Ok (flat_layout zero rows ncols).
Proof.
  intros Hrows Hrect. unfold flatten_table.
  rewrite (np_transpose_spec rows ncols); auto.
  2:{ intros ->. simpl in Hrows. lia. }
  cbn [bind].
  rewrite flatten_from_spec.
  2:{ intros k. unfold column. rewrite length_map. exact Hrows. }
  cbn [bind]. unfold flat_layout. rewrite split_epochs, <- app_assoc. reflexivity.
Qed.

Lemma flat_layout_length (rows : list (list num)) (ncols : nat) :
  (120 <= length rows)%nat ->
  length (flat_layout zero rows ncols)
  = (120 * Nat.min 19 ncols + length rows * (ncols - 19) + 1)%nat.
Proof.
  intros Hrows. unfold flat_layout.
  assert (Hfix : forall (g : nat -> list num) (c : nat) l,
             (forall i, length (g i) = c) -> length (concat (map g l)) = (c * length l)%nat).
  { intros g c l Hg. induction l as [|x l IH]; simpl; [lia|].
    rewrite length_app, IH, Hg. lia. }
  rewrite !length_app.
  rewrite (Hfix _ 120%nat), (Hfix _ (length rows)).
  - rewrite !length_seq. simpl. lia.
  - intros i. unfold column. apply length_map.
  - intros i. rewrite length_firstn. unfold column. rewrite length_map. lia.
Qed.

End LoadFacts.

(** ** get_coeffs: the walk over the flat table *)

Section WalkFacts.

Import IgrfCoeffs.

Variable rd : Z -> result R.

Lemma walk_m_app (l1 l2 : list nat) (st : Z * row * row) :
  walk_m rd (l1 ++ l2) st = (st' <- walk_m rd l1 st ;; walk_m rd l2 st').
Proof.
  revert st. induction l1 as [|m l1 IH]; intros [[temp gn] hn]; [reflexivity|].
  cbn [app walk_m].
  destruct (negb (m =? 0)%nat).
  - destruct (rd temp); [|reflexivity]. cbn [bind].
    destruct (rd (temp + 1)); [|reflexivity]. cbn [bind]. apply IH.
  - destruct (rd temp); [|reflexivity]. cbn [bind]. apply IH.
Qed.

Lemma walk_n_app (l1 l2 : list nat) (st : Z * list row * list row) :
  walk_n rd (l1 ++ l2) st = (st' <- walk_n rd l1 st ;; walk_n rd l2 st').
Proof.
  revert st. induction l1 as [|n l1 IH]; intros [[temp g] h]; [reflexivity|].
  cbn [app walk_n].
  destruct (walk_m rd (seq 0 (n + 1)) _) as [[[temp' gn] hn]|e]; [|reflexivity].
  cbn [bind]. apply IH.
Qed.

(** A walk that returns has read only values that exist. *)
Lemma walk_m_value_of (ms : list nat) (st st' : Z * row * row) :
  walk_m rd ms st = Ok st' ->
  walk_m (fun i => Ok (value_of rd i)) ms st = Ok st'.
Proof.
  revert st. induction ms as [|m ms IH]; intros [[temp gn] hn]; [trivial|].
  cbn [walk_m].
  destruct (negb (m =? 0)%nat).
  - destruct (rd temp) as [a|] eqn:Ea; [|discriminate]. cbn [bind].
    destruct (rd (temp + 1)) as [b|] eqn:Eb; [|discriminate]. cbn [bind].
    replace (value_of rd temp) with a by (unfold value_of; now rewrite Ea).
    replace (value_of rd (temp + 1)) with b by (unfold value_of; now rewrite Eb).
    apply IH.
  - destruct (rd temp) as [a|] eqn:Ea; [|discriminate]. cbn [bind].
    replace (value_of rd temp) with a by (unfold value_of; now rewrite Ea).
    apply IH.
Qed.

Lemma walk_n_value_of (ns : list nat) (st st' : Z * list row * list row) :
  walk_n rd ns st = Ok st' ->
  walk_n (fun i => Ok (value_of rd i)) ns st = Ok st'.
Proof.
  revert st. induction ns as [|n ns IH]; intros [[temp g] h]; [trivial|].
  cbn [walk_n].
  destruct (walk_m rd (seq 0 (n + 1)) _) as [[[temp' gn] hn]|e] eqn:E; [|discriminate].
  rewrite (walk_m_value_of _ _ _ E). cbn [bind]. apply IH.
Qed.

Variable f : Z -> R.
Variables lo hi : Z.
Hypothesis reads : forall i, (lo <= i < hi)%Z -> rd i = Ok (f i).

(** The orders [1..k] of one degree. *)
Lemma walk_m_orders (k : nat) (temp : Z) (gn hn : row) :
  (lo <= temp)%Z -> (temp + 2 * Z.of_nat k <= hi)%Z ->
  walk_m rd (seq 1 k) (temp, gn, hn)
  = Ok ((temp + 2 * Z.of_nat k)%Z,
        gn ++ map (fun m => Some (f (temp + 2 * Z.of_nat m - 2)%Z)) (seq 1 k),
        hn ++ map (fun m => Some (f (temp + 2 * Z.of_nat m - 1)%Z)) (seq 1 k)).
Proof.
  induction k as [|k IH]; intros Hlo Hhi.
  - cbn [seq walk_m map]. rewrite !app_nil_r. do 3 f_equal. lia.
  - rewrite seq_S, walk_m_app, IH by lia. cbn [bind walk_m].
    replace (negb (1 + k =? 0)%nat) with true by reflexivity.
    rewrite !reads by lia. cbn [bind].
    rewrite !map_app. cbn [map]. rewrite <- !app_assoc.
    replace (temp + 2 * Z.of_nat (1 + k) - 2)%Z with (temp + 2 * Z.of_nat k)%Z by lia.
    replace (temp + 2 * Z.of_nat (1 + k) - 1)%Z with (temp + 2 * Z.of_nat k + 1)%Z by lia.
    replace (temp + 2 * Z.of_nat k + 2)%Z with (temp + 2 * Z.of_nat (S k))%Z by lia.
    reflexivity.
Qed.

(** One degree: the order 0 and the orders [1..n]. *)
Lemma walk_m_row (n : nat) (temp : Z) (g0 : row) :
  (lo <= temp)%Z -> (temp + 2 * Z.of_nat n + 1 <= hi)%Z ->
  walk_m rd (seq 0 (n + 1)) (temp, g0, [])
  = Ok ((temp + 2 * Z.of_nat n + 1)%Z,
        g0 ++ Some (f temp)
           :: map (fun m => Some (f (temp + 2 * Z.of_nat m - 1)%Z)) (seq 1 n),
        None :: map (fun m => Some (f (temp + 2 * Z.of_nat m)%Z)) (seq 1 n)).
Proof.
  intros Hlo Hhi.
  replace (n + 1)%nat with (S n) by lia. cbn [seq walk_m].
  change (negb (0 =? 0)%nat) with false. cbv iota.
  rewrite reads by lia. cbn [bind].
  rewrite walk_m_orders by lia. rewrite <- app_assoc. cbn [app].
  replace (temp + 1 + 2 * Z.of_nat n)%Z with (temp + 2 * Z.of_nat n + 1)%Z by lia.
  rewrite (map_ext (fun m => Some (f (temp + 1 + 2 * Z.of_nat m - 2)%Z))
                   (fun m => Some (f (temp + 2 * Z.of_nat m - 1)%Z)))
    by (intros m; do 2 f_equal; lia).
  rewrite (map_ext (fun m => Some (f (temp + 1 + 2 * Z.of_nat m - 1)%Z))
                   (fun m => Some (f (temp + 2 * Z.of_nat m)%Z)))
    by (intros m; do 2 f_equal; lia).
  reflexivity.
Qed.

(** The degrees [0..k-1]. *)
Lemma walk_n_rows (k : nat) (temp0 : Z) :
  (lo <= temp0)%Z -> (temp0 + Z.of_nat k * Z.of_nat k <= hi)%Z ->
  walk_n rd (seq 0 k) (temp0, [], [])
  = Ok ((temp0 + Z.of_nat k * Z.of_nat k)%Z,
        map (g_row f temp0) (seq 0 k), map (h_row f temp0) (seq 0 k)).
Proof.
  induction k as [|k IH]; intros Hlo Hhi.
  - cbn [seq walk_n map]. do 3 f_equal. lia.
  - rewrite seq_S, walk_n_app, IH by nia. cbn [bind walk_n].
    rewrite walk_m_row by nia. cbn [bind].
    rewrite !map_app. cbn [map Nat.add].
    replace (temp0 + Z.of_nat k * Z.of_nat k + 2 * Z.of_nat k + 1)%Z
      with (temp0 + Z.of_nat (S k) * Z.of_nat (S k))%Z by nia.
    reflexivity.
Qed.

End WalkFacts.

(** ** get_coeffs: the rows returned *)

Section CoeffFacts.

Import IgrfCoeffs.

Local Open Scope R_scope.

Lemma nth_map_seq {A : Type} (F : nat -> A) (a k i : nat) (d : A) :
  (i < k)%nat -> nth i (map F (seq a k)) d = F (a + i)%nat.
Proof.
  intros Hi.
  rewrite (nth_indep _ d (F 0%nat)) by (rewrite length_map, length_seq; exact Hi).
  rewrite (map_nth F (seq a k) 0%nat i), seq_nth by exact Hi. reflexivity.
Qed.

Lemma length_g_row (f : Z -> R) (temp0 : Z) (n : nat) :
  length (g_row f temp0 n) = ((if (n =? 0)%nat then 1 else 0) + S n)%nat.
Proof.
  unfold g_row. rewrite length_app. cbn [length].
  rewrite length_map, length_seq. destruct (n =? 0)%nat; reflexivity.
Qed.

Lemma length_h_row (f : Z -> R) (temp0 : Z) (n : nat) :
  length (h_row f temp0 n) = S n.
Proof.
  unfold h_row. cbn [length]. rewrite length_map, length_seq. reflexivity.
Qed.

(** [g[n][m]] for a degree [n >= 1]. *)
Lemma entry_g_rows (f : Z -> R) (temp0 : Z) (k n m : nat) :
  (1 <= n < k)%nat -> (m <= n)%nat ->
  entry (map (g_row f temp0) (seq 0 k)) n m
  = Ok (Some (f (temp0 + 1 + g_offset n m)%Z)).
Proof.
  intros Hn Hm. unfold entry.
  rewrite (py_index_nat (A := row) _ _ []) by (rewrite length_map, length_seq; lia).
  rewrite nth_map_seq by lia. cbn [bind Nat.add].
  rewrite (py_index_nat _ _ None) by (rewrite length_g_row; lia).
  f_equal. unfold g_row, g_offset.
  destruct (Nat.eqb_spec n 0); [lia|]. cbn [app].
  destruct m as [|m]; cbn [nth Nat.eqb].
  - do 2 f_equal. lia.
  - rewrite nth_map_seq by lia. do 2 f_equal. lia.
Qed.

(** [h[n][m]] for a degree [n >= 1] and an order [m >= 1]. *)
Lemma entry_h_rows (f : Z -> R) (temp0 : Z) (k n m : nat) :
  (1 <= n < k)%nat -> (1 <= m <= n)%nat ->
  entry (map (h_row f temp0) (seq 0 k)) n m
  = Ok (Some (f (temp0 + 1 + h_offset n m)%Z)).
Proof.
  intros Hn Hm. unfold entry.
  rewrite (py_index_nat (A := row) _ _ []) by (rewrite length_map, length_seq; lia).
  rewrite nth_map_seq by lia. cbn [bind Nat.add].
  rewrite (py_index_nat _ _ None) by (rewrite length_h_row; lia).
  f_equal. unfold h_row, h_offset.
  destruct m as [|m]; [lia|]. cbn [nth].
  rewrite nth_map_seq by lia. do 2 f_equal. lia.
Qed.

(** [h[n][0]] is [None]. *)
Lemma entry_h_rows_order0 (f : Z -> R) (temp0 : Z) (k n : nat) :
  (n < k)%nat ->
  entry (map (h_row f temp0) (seq 0 k)) n 0 = Ok None.
Proof.
  intros Hn. unfold entry.
  rewrite (py_index_nat (A := row) _ _ []) by (rewrite length_map, length_seq; lia).
  rewrite nth_map_seq by lia. cbn [bind Nat.add].
  reflexivity.
Qed.

(** The row of degree 0: [g[0]] holds [None] and one value read just
    before the block, [h[0]] holds [None]. *)
Lemma rows_degree0 (f : Z -> R) (temp0 : Z) (k : nat) :
  (0 < k)%nat ->
  py_index (map (g_row f temp0) (seq 0 k)) 0 = Ok [None; Some (f temp0)]
  /\ py_index (map (h_row f temp0) (seq 0 k)) 0 = Ok [None].
Proof.
  intros Hk. change 0%Z with (Z.of_nat 0).
  rewrite !(py_index_nat (A := row) _ _ [])
    by (rewrite length_map, length_seq; lia).
  rewrite !nth_map_seq by lia.
  unfold g_row, h_row. cbn [Nat.add Nat.eqb app seq map Z.of_nat Z.mul].
  rewrite Z.add_0_r. split; reflexivity.
Qed.

(** [g[0][0]] is [None]. *)
Lemma entry_g_rows_degree0 (f : Z -> R) (temp0 : Z) (k : nat) :
  (0 < k)%nat ->
  entry (map (g_row f temp0) (seq 0 k)) 0 0 = Ok None.
Proof.
  intros Hk. unfold entry. change (Z.of_nat 0) with 0%Z.
  rewrite (proj1 (rows_degree0 f temp0 k Hk)). reflexivity.
Qed.

(** The variables of the loop in a date the function accepts. *)
Lemma select_degree (date : R) :
  nmx (snd (select date)) = 10%nat \/ nmx (snd (select date)) = 13%nat.
Proof.
  unfold select.
  destruct (Rge_dec date 2020); [right; reflexivity|].
  destruct (Rlt_dec date 1995); [left | right]; reflexivity.
Qed.

Lemma select_from_2020 (date : R) :
  2020 <= date ->
  snd (select date)
  = {| t := date - 2020; tc := 1; ll := 3255; nmx := 13; nc := 195 |}.
Proof.
  intros Hd. unfold select.
  destruct (Rge_dec date 2020); [reflexivity | lra].
Qed.

(** Out of the accepted dates [get_coeffs] logs three errors and returns
    the empty pair. *)
Lemma get_coeffs_out_of_range (gh : list R) (date : R) :
  date < 1900 \/ date > 2030 ->
  get_coeffs gh date = (out_of_range_log date, Ok ([], [])).
Proof.
  intros Hd. unfold get_coeffs.
  destruct (Rlt_dec date 1900); [reflexivity|].
  destruct (Rgt_dec date 2030); [reflexivity | lra].
Qed.

(** Every outcome of [get_coeffs] in a date it accepts: it raises, or it
    returns the rows of a walk that starts at [ll - 1]. *)
Lemma get_coeffs_rows (gh : list R) (date : R) (g h : list row) :
  1900 <= date <= 2030 ->
  snd (get_coeffs gh date) = Ok (g, h) ->
  let r := snd (select date) in
  let f := value_of (blend gh r) in
  g = map (g_row f (ll r - 1)) (seq 0 (nmx r + 1))
  /\ h = map (h_row f (ll r - 1)) (seq 0 (nmx r + 1)).
Proof.
  intros Hd. unfold get_coeffs.
  destruct (Rlt_dec date 1900); [lra|].
  destruct (Rgt_dec date 2030); [lra|].
  destruct (select date) as [logged r]. cbn [snd].
  intros H. apply bind_ok in H. destruct H as [[[temp g'] h'] [Hw Hret]].
  inversion Hret; subst g' h'; clear Hret.
  apply walk_n_value_of in Hw.
  rewrite (walk_n_rows (fun i => Ok (value_of (blend gh r) i))
             (value_of (blend gh r))
             (ll r - 1)%Z
             (ll r - 1 + Z.of_nat (nmx r + 1) * Z.of_nat (nmx r + 1))%Z) in Hw;
    [ | reflexivity | lia | lia ].
  inversion Hw. split; reflexivity.
Qed.

(** The blended value where both reads are inside the table. *)
Lemma blend_inside (gh : list R) (r : regime) (i : Z) :
  (0 <= i)%Z -> (0 <= nc r)%Z -> (i + nc r < Z.of_nat (length gh))%Z ->
  blend gh r i
  = Ok (tc r * nth (Z.to_nat i) gh 0 + t r * nth (Z.to_nat (i + nc r)) gh 0).
Proof.
  intros Hi Hnc Hlen. unfold blend.
  rewrite (py_index_Z gh _ 0) by lia. cbn [bind].
  rewrite (py_index_Z gh _ 0) by lia. reflexivity.
Qed.

(** With a table long enough for the walk, [get_coeffs] returns. *)
Lemma get_coeffs_returns (gh : list R) (date : R) :
  1900 <= date <= 2030 ->
  let r := snd (select date) in
  (1 <= ll r)%Z -> (0 <= nc r)%Z ->
  (ll r - 1 + Z.of_nat (nmx r + 1) * Z.of_nat (nmx r + 1) + nc r
   <= Z.of_nat (length gh))%Z ->
  let f := fun i => tc r * nth (Z.to_nat i) gh 0 + t r * nth (Z.to_nat (i + nc r)) gh 0 in
  snd (get_coeffs gh date)
  = Ok (map (g_row f (ll r - 1)) (seq 0 (nmx r + 1)),
        map (h_row f (ll r - 1)) (seq 0 (nmx r + 1))).
Proof.
  intros Hd r Hll Hnc Hlen f. unfold get_coeffs.
  destruct (Rlt_dec date 1900); [lra|].
  destruct (Rgt_dec date 2030); [lra|].
  subst r. destruct (select date) as [logged r]. cbn [snd] in *.
  rewrite (walk_n_rows (blend gh r) f
             (ll r - 1)%Z
             (ll r - 1 + Z.of_nat (nmx r + 1) * Z.of_nat (nmx r + 1))%Z);
    [ reflexivity | | lia | lia ].
  intros i Hi. apply blend_inside; lia.
Qed.


Lemma py_int_eq (z : Z) (x : R) :
  0 <= IZR z -> IZR z <= x < IZR z + 1 -> py_int x = z.
Proof.
  intros Hz Hx. unfold py_int.
  destruct (Rle_dec 0 x); [|lra].
  apply Zfloor_eq. exact Hx.
Qed.

(** The variables of the loop just below 1995.0, at 1995.0, just below
    2020.0. *)
Lemma select_below_1995 (date : R) :
  1990 <= date < 1995 ->
  snd (select date)
  = {| t := 0.2 * (date - 1900) - 18; tc := 1 - (0.2 * (date - 1900) - 18);
       ll := 2160; nmx := 10; nc := 120 |}.
Proof.
  intros Hd. unfold select.
  destruct (Rge_dec date 2020); [lra|].
  destruct (Rlt_dec date 1995); [|lra].
  rewrite (py_int_eq 18) by lra. reflexivity.
Qed.

Lemma select_at_1995 :
  snd (select 1995)
  = {| t := 0.2 * (1995 - 1900) - 19; tc := 1 - (0.2 * (1995 - 1900) - 19);
       ll := 2280; nmx := 13; nc := 195 |}.
Proof.
  unfold select.
  destruct (Rge_dec 1995 2020); [lra|].
  destruct (Rlt_dec 1995 1995); [lra|].
  rewrite (py_int_eq 19) by lra.
  rewrite (py_int_eq 0) by lra. reflexivity.
Qed.

Lemma select_below_2020 (date : R) :
  2015 <= date < 2020 ->
  snd (select date)
  = {| t := 0.2 * (date - 1900) - 23; tc := 1 - (0.2 * (date - 1900) - 23);
       ll := 3060; nmx := 13; nc := 195 |}.
Proof.
  intros Hd. unfold select.
  destruct (Rge_dec date 2020); [lra|].
  destruct (Rlt_dec date 1995); [lra|].
  rewrite (py_int_eq 23) by lra.
  rewrite (py_int_eq 4) by lra. reflexivity.
Qed.

(** The interpolation between [a] and [b] tends to [b] at the end of the
    interval of five years that ends in [x0]. *)
Lemma interpolation_limit (a b x0 : R) (eps : R) :
  eps > 0 ->
  exists delta : R, delta > 0 /\ delta <= 5 /\
    forall x : R, x0 - delta < x < x0 ->
      Rabs ((0.2 * (x0 - x)) * a + (1 - 0.2 * (x0 - x)) * b - b) < eps.
Proof.
  intros Heps.
  pose proof (Rabs_pos (a - b)) as Hab.
  exists (Rmin 5 (eps / (Rabs (a - b) + 1))).
  assert (Hq : 0 < eps / (Rabs (a - b) + 1)).
  { apply Rdiv_lt_0_compat; lra. }
  split; [apply Rmin_glb_lt; lra|].
  split; [apply Rmin_l|].
  intros x [Hlo Hhi].
  pose proof (Rmin_r 5 (eps / (Rabs (a - b) + 1))) as Hmin.
  replace ((0.2 * (x0 - x)) * a + (1 - 0.2 * (x0 - x)) * b - b)
    with ((0.2 * (x0 - x)) * (a - b)) by ring.
  rewrite Rabs_mult, (Rabs_pos_eq (0.2 * (x0 - x))) by lra.
  assert (Hs : x0 - x < eps / (Rabs (a - b) + 1)) by lra.
  assert (Hk : (x0 - x) * (Rabs (a - b) + 1) < eps).
  { apply (Rmult_lt_compat_r (Rabs (a - b) + 1)) in Hs; [|lra].
    unfold Rdiv in Hs. rewrite Rmult_assoc, Rinv_l, Rmult_1_r in Hs by lra.
    exact Hs. }
  nra.
Qed.


(** The rows returned in a date whose loop variables are known. *)
Lemma get_coeffs_with (gh : list R) (date : R) (r : regime) :
  1900 <= date <= 2030 ->
  snd (select date) = r ->
  (1 <= ll r)%Z -> (0 <= nc r)%Z ->
  (ll r - 1 + Z.of_nat (nmx r + 1) * Z.of_nat (nmx r + 1) + nc r
   <= Z.of_nat (length gh))%Z ->
  snd (get_coeffs gh date)
  = Ok (map (g_row (fun i => tc r * nth (Z.to_nat i) gh 0
                             + t r * nth (Z.to_nat (i + nc r)) gh 0)
                   (ll r - 1)) (seq 0 (nmx r + 1)),
        map (h_row (fun i => tc r * nth (Z.to_nat i) gh 0
                             + t r * nth (Z.to_nat (i + nc r)) gh 0)
                   (ll r - 1)) (seq 0 (nmx r + 1))).
Proof.
  intros Hd Hsel Hll Hnc Hlen.
  pose proof (get_coeffs_returns gh date Hd) as H. cbv zeta in H.
  rewrite Hsel in H. apply H; assumption.
Qed.

(** Continuity from below at the end [x0] of an interval of five years
    whose block starts at [L] and has [C] values per epoch, the block at
    [x0] starting at [L + C]. *)
Lemma continuity_at_epoch (gh : list R) (x0 K T0 TC0 : R) (L C C0 : Z) (N N0 : nat) :
  1905 <= x0 <= 2030 ->
  (forall date, x0 - 5 <= date < x0 ->
     snd (select date)
     = {| t := 0.2 * (date - 1900) - K; tc := 1 - (0.2 * (date - 1900) - K);
          ll := L; nmx := N; nc := C |}) ->
  snd (select x0) = {| t := T0; tc := TC0; ll := L + C; nmx := N0; nc := C0 |} ->
  T0 = 0 -> TC0 = 1 -> 0.2 * (x0 - 1900) - K = 1 ->
  (1 <= L)%Z -> (0 <= C)%Z -> (0 <= C0)%Z -> (N <= N0)%nat ->
  (L - 1 + Z.of_nat (N + 1) * Z.of_nat (N + 1) + C <= Z.of_nat (length gh))%Z ->
  (L + C - 1 + Z.of_nat (N0 + 1) * Z.of_nat (N0 + 1) + C0 <= Z.of_nat (length gh))%Z ->
  forall n m : nat, (n <= N)%nat -> (m <= n)%nat ->
    continuous_from_below (g_entry gh n m) x0
    /\ continuous_from_below (h_entry gh n m) x0.
Proof.
  intros Hx0 Hbelow Hat HT0 HTC0 HK HL HC HC0 HN Hlen Hlen0 n m Hn Hm.
  pose proof (fun date (Hd : x0 - 5 <= date < x0) =>
                get_coeffs_with gh date _ ltac:(lra) (Hbelow date Hd) HL HC Hlen)
    as Hrows.
  pose proof (get_coeffs_with gh x0 _ ltac:(lra) Hat ltac:(cbn; lia) HC0 Hlen0)
    as Hrows0.
  cbn [t tc ll nmx nc] in Hrows, Hrows0.
  assert (Hnone : forall (F : R -> result (option R)),
            (forall date, x0 - 5 <= date <= x0 -> F date = Ok None) ->
            continuous_from_below F x0).
  { intros F HF eps Heps. exists 5. split; [lra|].
    intros x Hx. rewrite !HF by lra. exact I. }
  assert (Hnum : forall (F : R -> result (option R)) (o : Z),
            (forall date, x0 - 5 <= date < x0 ->
               F date = Ok (Some ((1 - (0.2 * (date - 1900) - K))
                                    * nth (Z.to_nat (L - 1 + 1 + o)) gh 0
                                  + (0.2 * (date - 1900) - K)
                                    * nth (Z.to_nat (L - 1 + 1 + o + C)) gh 0))) ->
            F x0 = Ok (Some (TC0 * nth (Z.to_nat (L + C - 1 + 1 + o)) gh 0
                             + T0 * nth (Z.to_nat (L + C - 1 + 1 + o + C0)) gh 0)) ->
            continuous_from_below F x0).
  { intros F o HF HF0 eps Heps.
    destruct (interpolation_limit
                (nth (Z.to_nat (L - 1 + 1 + o)) gh 0)
                (nth (Z.to_nat (L - 1 + 1 + o + C)) gh 0) x0 eps Heps)
      as [delta [Hpos [Hle Hlim]]].
    exists delta. split; [exact Hpos|].
    intros x Hx. rewrite HF by lra. rewrite HF0. unfold within.
    specialize (Hlim x Hx).
    replace (L + C - 1 + 1 + o)%Z with (L - 1 + 1 + o + C)%Z by lia.
    rewrite HT0, HTC0.
    match goal with |- Rabs ?e < _ =>
      replace e with (0.2 * (x0 - x) * nth (Z.to_nat (L - 1 + 1 + o)) gh 0
                      + (1 - 0.2 * (x0 - x)) * nth (Z.to_nat (L - 1 + 1 + o + C)) gh 0
                      - nth (Z.to_nat (L - 1 + 1 + o + C)) gh 0)
    end; [exact Hlim|].
    replace (0.2 * (x0 - x)) with (1 - (0.2 * (x - 1900) - K)) by lra.
    replace (1 - (1 - (0.2 * (x - 1900) - K))) with (0.2 * (x - 1900) - K) by lra.
    ring. }
  destruct (Nat.eq_dec n 0) as [Hn0|Hn0].
  - (* degree 0: [g[0][0]] and [h[0][0]] are [None] *)
    subst n. assert (m = 0)%nat by lia. subst m.
    split; apply Hnone; intros date Hd; unfold g_entry, h_entry.
    + assert (Hcase : date < x0 \/ date = x0) by lra.
      destruct Hcase as [Hlt | ->];
        [rewrite Hrows by lra | rewrite Hrows0]; cbn [bind fst];
        apply entry_g_rows_degree0; lia.
    + assert (Hcase : date < x0 \/ date = x0) by lra.
      destruct Hcase as [Hlt | ->];
        [rewrite Hrows by lra | rewrite Hrows0]; cbn [bind snd];
        apply entry_h_rows_order0; lia.
  - split.
    + apply (Hnum _ (g_offset n m)).
      * intros date Hd. unfold g_entry. rewrite Hrows by lra. cbn [bind fst].
        rewrite entry_g_rows by lia. reflexivity.
      * unfold g_entry. rewrite Hrows0. cbn [bind fst].
        rewrite entry_g_rows by lia. reflexivity.
    + destruct (Nat.eq_dec m 0) as [Hm0|Hm0].
      * subst m. apply Hnone. intros date Hd. unfold h_entry.
        assert (Hcase : date < x0 \/ date = x0) by lra.
        destruct Hcase as [Hlt | ->];
          [rewrite Hrows by lra | rewrite Hrows0]; cbn [bind snd];
          apply entry_h_rows_order0; lia.
      * apply (Hnum _ (h_offset n m)).
        -- intros date Hd. unfold h_entry. rewrite Hrows by lra. cbn [bind snd].
           rewrite entry_h_rows by lia. reflexivity.
        -- unfold h_entry. rewrite Hrows0. cbn [bind snd].
           rewrite entry_h_rows by lia. reflexivity.
Qed.


(** A blend whose two reads are inside the table returns; the first read
    may be [gh[-1]]. *)
Lemma blend_returns (gh : list R) (r : regime) (i : Z) :
  (-1 <= i)%Z -> (0 <= i + nc r)%Z -> (i + nc r < Z.of_nat (length gh))%Z ->
  (0 <= nc r)%Z ->
  blend gh r i = Ok (value_of (blend gh r) i).
Proof.
  intros Hi Hnc Hlen Hc.
  assert (Hex : exists v, blend gh r i = Ok v).
  { destruct (Z.eq_dec i (-1)) as [->|Hne].
    - unfold blend.
      assert (Hne : gh <> []).
      { intros Hnil. rewrite Hnil in Hlen. cbn [length Z.of_nat] in Hlen. lia. }
      rewrite (py_index_minus_one gh 0 Hne).
      cbn [bind]. rewrite (py_index_Z gh _ 0) by lia. cbn [bind]. eauto.
    - rewrite blend_inside by lia. eauto. }
  destruct Hex as [v Hv]. unfold value_of. rewrite Hv. reflexivity.
Qed.

Lemma py_int_range (x : R) (k : Z) :
  0 <= x < IZR k -> (0 <= py_int x < k)%Z.
Proof.
  intros [Hlo Hhi]. unfold py_int.
  destruct (Rle_dec 0 x); [|lra].
  pose proof (Zfloor_bound x) as [Hf _].
  split.
  - apply (Zfloor_lub 0). exact Hlo.
  - apply lt_IZR. lra.
Qed.

(** Where the walk starts and how far it reads, in any accepted date. *)
Lemma select_bounds (date : R) :
  1900 <= date <= 2030 ->
  let r := snd (select date) in
  (0 <= ll r)%Z /\ (1 <= nc r)%Z
  /\ (ll r - 1 + Z.of_nat (nmx r + 1) * Z.of_nat (nmx r + 1) + nc r <= 3645)%Z.
Proof.
  intros Hd. unfold select.
  destruct (Rge_dec date 2020); [cbn; lia|].
  destruct (Rlt_dec date 1995).
  - pose proof (py_int_range (0.2 * (date - 1900)) 19 ltac:(lra)).
    cbn [snd ll nmx nc]. lia.
  - pose proof (py_int_range (0.2 * (date - 1995)) 5 ltac:(lra)).
    cbn [snd ll nmx nc]. lia.
Qed.

(** With the whole table, [get_coeffs] returns in every accepted date. *)
Lemma get_coeffs_total (gh : list R) (date : R) :
  1900 <= date <= 2030 ->
  (3645 <= length gh)%nat ->
  let r := snd (select date) in
  let f := value_of (blend gh r) in
  snd (get_coeffs gh date)
  = Ok (map (g_row f (ll r - 1)) (seq 0 (nmx r + 1)),
        map (h_row f (ll r - 1)) (seq 0 (nmx r + 1))).
Proof.
  intros Hd Hlen r f.
  pose proof (select_bounds date Hd) as Hb. cbv zeta in Hb. fold r in Hb.
  destruct Hb as [Hll [Hnc Hend]].
  unfold get_coeffs.
  destruct (Rlt_dec date 1900); [lra|].
  destruct (Rgt_dec date 2030); [lra|].
  subst f r. destruct (select date) as [logged r]. cbn [snd] in *.
  rewrite (walk_n_rows (blend gh r) (value_of (blend gh r))
             (ll r - 1)%Z
             (ll r - 1 + Z.of_nat (nmx r + 1) * Z.of_nat (nmx r + 1))%Z);
    [ reflexivity | | lia | lia ].
  intros i Hi. apply blend_returns; lia.
Qed.

End CoeffFacts.

(** ** get_coeffs: the claims *)

(** Two blends of the same two entries of the table, the indices written
    differently. *)
Ltac same_reads :=
  repeat match goal with
    | |- Ok _ = Ok _ => f_equal
    | |- Some _ = Some _ => f_equal
    | |- (_ + _)%R = (_ + _)%R => f_equal
    | |- (_ * _)%R = (_ * _)%R => f_equal
    | |- nth _ ?l ?d = nth _ ?l ?d => f_equal; lia
    end;
  try reflexivity; try lra.

Section GetCoeffsClaims.

Import IgrfCoeffs.

Local Open Scope R_scope.

(** C5. [get_coeffs] returns the empty pair exactly for a date below
    1900.0 or above 2030.0, whatever the table; it then returns normally,
    having logged three error records; in particular at 1899.9 and at
    2030.1. *)
Theorem get_coeffs_empty_iff_out_of_range (gh : list R) (date : R) :
  (snd (get_coeffs gh date) = Ok ([], []) <-> date < 1900 \/ date > 2030)
  /\ (date < 1900 \/ date > 2030 ->
      get_coeffs gh date = (out_of_range_log date, Ok ([], [])))
  /\ snd (get_coeffs gh 1899.9) = Ok ([], [])
  /\ snd (get_coeffs gh 2030.1) = Ok ([], []).
Proof.
  pose proof (get_coeffs_out_of_range gh) as Hout.
  split; [split | split; [exact (Hout date) | split]].
  - intros Hempty.
    destruct (Rlt_dec date 1900); [left; assumption|].
    destruct (Rgt_dec date 2030); [right; assumption|].
    exfalso.
    destruct (get_coeffs_rows gh date [] [] ltac:(lra) Hempty) as [Hg _].
    apply (f_equal (@length row)) in Hg.
    rewrite length_map, length_seq in Hg. simpl in Hg. lia.
  - intros Hd. rewrite (Hout date Hd). reflexivity.
  - rewrite Hout by lra. reflexivity.
  - rewrite Hout by lra. reflexivity.
Qed.

(** C2. From 2020.0 to 2030.0 every Gauss coefficient returned is
    [base + (date - 2020.0) * sv], [base] read in the block that starts at
    offset 3255 = 3060 + 195 of the flat table and [sv] 195 entries
    later, with no bound on [date - 2020.0] but that of the accepted
    dates. The row [g[0]] holds [None] and one value blended in the same
    way from the entry before each block. *)
Theorem get_coeffs_secular_extrapolation (gh : list R) (date : R) :
  2020 <= date <= 2030 ->
  (3645 <= length gh)%nat ->
  exists g h : list row,
    snd (get_coeffs gh date) = Ok (g, h)
    /\ length g = 14%nat /\ length h = 14%nat
    /\ (forall n m : nat, (1 <= n <= 13)%nat -> (m <= n)%nat ->
        let i := Z.to_nat (3255 + g_offset n m) in
        entry g n m
        = Ok (Some (nth i gh 0 + (date - 2020) * nth (i + 195) gh 0)))
    /\ (forall n m : nat, (1 <= n <= 13)%nat -> (1 <= m <= n)%nat ->
        let i := Z.to_nat (3255 + h_offset n m) in
        entry h n m
        = Ok (Some (nth i gh 0 + (date - 2020) * nth (i + 195) gh 0)))
    /\ (forall n : nat, (n <= 13)%nat -> entry h n 0 = Ok None)
    /\ py_index g 0
       = Ok [None; Some (nth 3254 gh 0 + (date - 2020) * nth 3449 gh 0)].
Proof.
  intros Hd Hlen.
  pose proof (get_coeffs_returns gh date ltac:(lra)) as Hret.
  rewrite (select_from_2020 date ltac:(lra)) in Hret. cbn [t tc ll nmx nc] in Hret.
  specialize (Hret ltac:(lia) ltac:(lia) ltac:(lia)).
  eexists; eexists. split; [exact Hret|].
  split; [rewrite length_map, length_seq; reflexivity|].
  split; [rewrite length_map, length_seq; reflexivity|].
  split; [|split; [|split]].
  - intros n m Hn Hm i.
    rewrite entry_g_rows by lia. subst i. unfold g_offset.
    destruct (m =? 0)%nat; rewrite Rmult_1_l; same_reads.
  - intros n m Hn Hm i.
    rewrite entry_h_rows by lia. subst i. unfold h_offset.
    rewrite Rmult_1_l; same_reads.
  - intros n Hn. apply entry_h_rows_order0. lia.
  - destruct (rows_degree0
                (fun i => 1 * nth (Z.to_nat i) gh 0
                          + (date - 2020) * nth (Z.to_nat (i + 195)) gh 0)
                (3255 - 1)%Z (13 + 1)%nat ltac:(lia)) as [Hg0 _].
    rewrite Hg0. do 4 f_equal. rewrite Rmult_1_l. reflexivity.
Qed.


(** C4. [get_coeffs] is continuous from below at the two dates where the
    regime changes: every entry of degree at most 10 tends, as the date
    tends to 1995.0 from below, to the entry the degree-13 formula gives
    at 1995.0, and every entry of degree at most 13 tends, as the date
    tends to 2020.0 from below, to the entry the extrapolation gives at
    2020.0. *)
Theorem get_coeffs_continuous_at_regime_boundaries (gh : list R) :
  (3645 <= length gh)%nat ->
  (forall n m : nat, (n <= 10)%nat -> (m <= n)%nat ->
     continuous_from_below (g_entry gh n m) 1995
     /\ continuous_from_below (h_entry gh n m) 1995)
  /\ (forall n m : nat, (n <= 13)%nat -> (m <= n)%nat ->
     continuous_from_below (g_entry gh n m) 2020
     /\ continuous_from_below (h_entry gh n m) 2020).
Proof.
  intros Hlen. split.
  - apply (continuity_at_epoch gh 1995 18
             (0.2 * (1995 - 1900) - 19) (1 - (0.2 * (1995 - 1900) - 19))
             2160 120 195 10 13); try lra; try (cbn; lia).
    + intros date Hd. apply select_below_1995. lra.
    + exact select_at_1995.
  - apply (continuity_at_epoch gh 2020 23 (2020 - 2020) 1 3060 195 195 13 13);
      try lra; try (cbn; lia).
    + intros date Hd. apply select_below_2020. lra.
    + exact (select_from_2020 2020 ltac:(lra)).
Qed.

End GetCoeffsClaims.

(** ** The functions of numpy *)

Section NumpyFacts.

Local Open Scope R_scope.

Lemma arctan2_bound (y x : R) : - PI <= arctan2 y x <= PI.
Proof.
  pose proof PI_RGT_0 as Hpi.
  pose proof (atan_bound (y / x)) as Hat.
  unfold arctan2.
  destruct (Rlt_dec 0 x) as [Hx|Hx]; [lra|].
  destruct (Rlt_dec x 0) as [Hx'|Hx'].
  - assert (Hinv : / x < 0) by (apply Rinv_lt_0_compat; exact Hx').
    destruct (Rle_dec 0 y) as [Hy|Hy].
    + assert (Hq : y / x <= 0) by (unfold Rdiv; nra).
      assert (atan (y / x) <= 0).
      { destruct Hq as [Hq|Hq].
        - left. rewrite <- atan_0. apply atan_increasing. exact Hq.
        - rewrite Hq, atan_0. lra. }
      lra.
    + assert (Hq : 0 < y / x) by (unfold Rdiv; nra).
      assert (0 < atan (y / x)).
      { rewrite <- atan_0. apply atan_increasing. exact Hq. }
      lra.
  - destruct (Rlt_dec 0 y); [lra|].
    destruct (Rlt_dec y 0); lra.
Qed.

Lemma rint_integer (z : Z) : rint (IZR z) = IZR z.
Proof.
  unfold rint. rewrite ZfloorZ.
  destruct (Rlt_dec (IZR z - IZR z) (1 / 2)); [reflexivity | lra].
Qed.

(** [np.rint] moves a number by at most one half. *)
Lemma rint_error (x : R) : Rabs (rint x - x) <= 1 / 2.
Proof.
  unfold rint.
  pose proof (Zfloor_bound x) as [Hlo Hhi].
  destruct (Rlt_dec (x - IZR (Zfloor x)) (1 / 2)).
  - rewrite Rabs_left1 by lra. lra.
  - destruct (Rlt_dec (1 / 2) (x - IZR (Zfloor x))).
    + rewrite plus_IZR. rewrite Rabs_right by lra. lra.
    + destruct (Z.even (Zfloor x)).
      * rewrite Rabs_left1 by lra. lra.
      * rewrite plus_IZR. rewrite Rabs_right by lra. lra.
Qed.

(** [rint] of a number whose floor and fractional part are known. *)
Lemma rint_down (z : Z) (x : R) :
  IZR z <= x < IZR z + 1 / 2 -> rint x = IZR z.
Proof.
  intros Hx. unfold rint. rewrite (Zfloor_eq z) by lra.
  destruct (Rlt_dec (x - IZR z) (1 / 2)); [reflexivity | lra].
Qed.

Lemma rint_up (z : Z) (x : R) :
  IZR z + 1 / 2 < x < IZR z + 1 -> rint x = IZR (z + 1).
Proof.
  intros Hx. unfold rint. rewrite (Zfloor_eq z) by lra.
  destruct (Rlt_dec (x - IZR z) (1 / 2)); [lra|].
  destruct (Rlt_dec (1 / 2) (x - IZR z)); [reflexivity | lra].
Qed.

Lemma rint_half (z : Z) :
  rint (IZR z + 1 / 2) = if Z.even z then IZR z else IZR (z + 1).
Proof.
  unfold rint. rewrite (Zfloor_eq z) by lra.
  destruct (Rlt_dec (IZR z + 1 / 2 - IZR z) (1 / 2)); [lra|].
  destruct (Rlt_dec (1 / 2) (IZR z + 1 / 2 - IZR z)); [lra|].
  reflexivity.
Qed.

Lemma np_round_0 (x : R) : np_round x 0 = rint x.
Proof.
  unfold np_round. change (0 <=? 0)%Z with true. cbv iota.
  change (Z.to_nat 0) with 0%nat. cbn [pow].
  rewrite Rmult_1_r. unfold Rdiv. rewrite Rinv_1, Rmult_1_r. reflexivity.
Qed.

Lemma np_round_2 (x : R) : np_round x 2 = rint (x * 100) / 100.
Proof.
  unfold np_round. change (0 <=? 2)%Z with true. cbv iota.
  change (Z.to_nat 2) with 2%nat. cbn [pow].
  replace (10 * (10 * 1)) with 100 by lra. reflexivity.
Qed.


End NumpyFacts.

(** ** Angles, rounding and rotations *)

Section Geometry.

Import CoordTransforms.

Local Open Scope R_scope.

Lemma Rabs_sin_le (x : R) : Rabs (sin x) <= Rabs x.
Proof.
  assert (Hpos : forall y, 0 <= y -> Rabs (sin y) <= y).
  { intros y Hy. destruct Hy as [Hy|<-]; [|rewrite sin_0, Rabs_R0; lra].
    apply Rabs_le. split.
    - destruct (Rle_dec 1 y).
      + pose proof (SIN_bound y). lra.
      + pose proof PI2_1. pose proof (sin_gt_0 y Hy ltac:(lra)). lra.
    - left. apply sin_lt_x. exact Hy. }
  destruct (Rle_dec 0 x) as [Hx|Hx].
  - rewrite (Rabs_pos_eq x Hx). apply Hpos. exact Hx.
  - rewrite <- (Rabs_Ropp (sin x)), <- sin_neg, <- (Rabs_Ropp x).
    rewrite (Rabs_pos_eq (- x)) by lra. apply Hpos. lra.
Qed.


Lemma cos_lipschitz (a b : R) : Rabs (cos a - cos b) <= Rabs (a - b).
Proof.
  rewrite form2, !Rabs_mult.
  pose proof (SIN_bound ((a + b) / 2)) as Hc.
  pose proof (Rabs_sin_le ((a - b) / 2)) as Hs.
  assert (Hc' : Rabs (sin ((a + b) / 2)) <= 1) by (apply Rabs_le; lra).
  replace (Rabs ((a - b) / 2)) with (Rabs (a - b) / 2) in Hs.
  2:{ unfold Rdiv. rewrite Rabs_mult, (Rabs_pos_eq (/ 2)) by lra. reflexivity. }
  rewrite (Rabs_left (-2)) by lra.
  pose proof (Rabs_pos (sin ((a - b) / 2))).
  pose proof (Rabs_pos (sin ((a + b) / 2))).
  nra.
Qed.




Lemma rint_is_integer (x : R) : exists k : Z, rint x = IZR k.
Proof.
  unfold rint.
  destruct (Rlt_dec _ _); [eauto|].
  destruct (Rlt_dec _ _); [eauto|].
  destruct (Z.even _); eauto.
Qed.



Lemma rad2deg_deg2rad (x : R) : rad2deg (deg2rad x) = x.
Proof.
  unfold deg2rad, rad2deg. pose proof PI_RGT_0. field. lra.
Qed.

(** [arctan2] gives back the angle of a point of the right half plane. *)
Lemma arctan2_sin_cos (a : R) :
  - (PI / 2) < a < PI / 2 -> arctan2 (sin a) (cos a) = a.
Proof.
  intros Ha. unfold arctan2.
  pose proof (cos_gt_0 a ltac:(lra) ltac:(lra)) as Hc.
  destruct (Rlt_dec 0 (cos a)); [|lra].
  change (sin a / cos a) with (tan a). apply atan_tan. exact Ha.
Qed.



Lemma Rabs_sin_le_1 (x : R) : Rabs (sin x) <= 1.
Proof. apply Rabs_le. pose proof (SIN_bound x). lra. Qed.

Lemma Rabs_cos_le_1 (x : R) : Rabs (cos x) <= 1.
Proof. apply Rabs_le. pose proof (COS_bound x). lra. Qed.

Lemma sin2_cos2' (a : R) : sin a * sin a + cos a * cos a = 1.
Proof. pose proof (sin2_cos2 a) as H. unfold Rsqr in H. exact H. Qed.

(** The transposed matrix undoes the rotation. *)
Lemma rotate_cd_geoc_rotate_geoc_cd (colat long : R) (v : vec3) :
  rotate_cd_geoc colat long (rotate_geoc_cd colat long v) = v.
Proof.
  destruct v as [[a b] c].
  unfold rotate_cd_geoc, rotate_geoc_cd, base_xx, base_yy, base_m, dot.
  pose proof (sin2_cos2' colat) as H1. pose proof (sin2_cos2' long) as H2.
  set (s1 := sin colat) in *. set (c1 := cos colat) in *.
  set (s2 := sin long) in *. set (c2 := cos long) in *.
  f_equal; [f_equal|]; nsatz.
Qed.

(** The rotation keeps the norm. *)
Lemma norm_rotate_geoc_cd (colat long : R) (v : vec3) :
  norm (rotate_geoc_cd colat long v) = norm v.
Proof.
  destruct v as [[a b] c].
  unfold rotate_geoc_cd, base_xx, base_yy, base_m, dot, norm.
  pose proof (sin2_cos2' colat) as H1. pose proof (sin2_cos2' long) as H2.
  set (s1 := sin colat) in *. set (c1 := cos colat) in *.
  set (s2 := sin long) in *. set (c2 := cos long) in *.
  f_equal. nsatz.
Qed.

End Geometry.

(** ** Bounds of the roundings, and the rotations once more *)

Section MoreNumpyFacts.

Local Open Scope R_scope.

(** [np.rint] stays between two integers that enclose its argument. *)
Lemma rint_between (x : R) (lo hi : Z) :
  IZR lo <= x <= IZR hi -> IZR lo <= rint x <= IZR hi.
Proof.
  intros [Hlo Hhi].
  destruct (rint_is_integer x) as [k Hk]. rewrite Hk.
  pose proof (rint_error x) as He. rewrite Hk in He.
  unfold Rabs in He. destruct (Rcase_abs (IZR k - x)) as [Hn|Hn].
  all: split; apply IZR_le.
  all: first
    [ assert (lo - 1 < k)%Z; [apply lt_IZR; rewrite minus_IZR; lra | lia]
    | assert (k < hi + 1)%Z; [apply lt_IZR; rewrite plus_IZR; lra | lia] ].
Qed.

(** Rounding to a number of decimals that is not negative stays between
    two integers that enclose the argument. *)
Lemma np_round_between (x : R) (decimals lo hi : Z) :
  (0 <= decimals)%Z ->
  IZR lo <= x <= IZR hi -> IZR lo <= np_round x decimals <= IZR hi.
Proof.
  intros Hd [Hlo Hhi]. unfold np_round.
  destruct (Z.leb_spec 0 decimals); [|lia].
  set (n := Z.to_nat decimals).
  assert (Hp : 0 < 10 ^ n) by (apply pow_lt; lra).
  assert (Hpz : 10 ^ n = IZR (10 ^ Z.of_nat n)).
  { rewrite <- pow_IZR. reflexivity. }
  pose proof (rint_between (x * 10 ^ n) (lo * 10 ^ Z.of_nat n) (hi * 10 ^ Z.of_nat n)) as Hb.
  rewrite !mult_IZR, <- !Hpz in Hb.
  destruct Hb as [Hb1 Hb2]; [split; nra|].
  split.
  - apply (Rmult_le_reg_r (10 ^ n)); [exact Hp|].
    unfold Rdiv. rewrite Rmult_assoc, Rinv_l by lra. lra.
  - apply (Rmult_le_reg_r (10 ^ n)); [exact Hp|].
    unfold Rdiv. rewrite Rmult_assoc, Rinv_l by lra. lra.
Qed.

Lemma rad2deg_bound (a lo hi : R) :
  lo * PI <= a <= hi * PI -> lo * 180 <= rad2deg a <= hi * 180.
Proof.
  intros [H0 H1]. pose proof PI_RGT_0 as Hpi.
  assert (Hk : 0 < / PI) by (apply Rinv_0_lt_compat; lra).
  assert (E : forall c, c * 180 = c * PI * 180 * / PI) by (intros c; field; lra).
  unfold rad2deg, Rdiv. rewrite (E lo), (E hi).
  split.
  - replace (a * (180 * / PI)) with (a * 180 * / PI) by ring.
    apply Rmult_le_compat_r; lra.
  - replace (a * (180 * / PI)) with (a * 180 * / PI) by ring.
    apply Rmult_le_compat_r; lra.
Qed.

Lemma rad2deg_acos_bound (x : R) : 0 <= rad2deg (acos x) <= 180.
Proof.
  pose proof (acos_bound x) as H.
  pose proof (rad2deg_bound (acos x) 0 1) as Hb. lra.
Qed.

Lemma rad2deg_arctan2_bound (y x : R) : -180 <= rad2deg (arctan2 y x) <= 180.
Proof.
  pose proof (arctan2_bound y x) as H.
  pose proof (rad2deg_bound (arctan2 y x) (-1) 1) as Hb. lra.
Qed.

End MoreNumpyFacts.

Section MoreGeometry.

Import CoordTransforms.

Local Open Scope R_scope.

(** The rotation undoes the transposed matrix. *)
Lemma rotate_geoc_cd_rotate_cd_geoc (colat long : R) (v : vec3) :
  rotate_geoc_cd colat long (rotate_cd_geoc colat long v) = v.
Proof.
  destruct v as [[a b] c].
  unfold rotate_cd_geoc, rotate_geoc_cd, base_xx, base_yy, base_m, dot.
  pose proof (sin2_cos2' colat) as H1. pose proof (sin2_cos2' long) as H2.
  set (s1 := sin colat) in *. set (c1 := cos colat) in *.
  set (s2 := sin long) in *. set (c2 := cos long) in *.
  f_equal; [f_equal|]; nsatz.
Qed.

Lemma norm_rotate_cd_geoc (colat long : R) (v : vec3) :
  norm (rotate_cd_geoc colat long v) = norm v.
Proof.
  rewrite <- (norm_rotate_geoc_cd colat long (rotate_cd_geoc colat long v)).
  rewrite rotate_geoc_cd_rotate_cd_geoc. reflexivity.
Qed.

(** The rotation sends the direction of the pole to the third axis. *)
Lemma rotate_geoc_cd_pole (colat long r : R) :
  rotate_geoc_cd colat long (spherical2ecef (colat, long, r)) = (0, 0, r).
Proof.
  unfold rotate_geoc_cd, spherical2ecef, base_xx, base_yy, base_m, dot.
  pose proof (sin2_cos2' colat) as H1. pose proof (sin2_cos2' long) as H2.
  set (s1 := sin colat) in *. set (c1 := cos colat) in *.
  set (s2 := sin long) in *. set (c2 := cos long) in *.
  f_equal; [f_equal|]; nsatz.
Qed.

Lemma map_id_ext {A : Type} (f : A -> A) (l : list A) :
  (forall a, f a = a) -> map f l = l.
Proof.
  intros Hf. induction l as [|a l IH]; cbn; [reflexivity|].
  rewrite Hf, IH. reflexivity.
Qed.

End MoreGeometry.

(** ** coord_transforms.py: the dipole pole *)

Section PoleFacts.

Import IgrfCoeffs CoordTransforms.

Local Open Scope R_scope.

Variable GH : list R.

(** The pole computed from rows that a walk has filled. *)
Lemma pole_of_rows (year : R) (f : Z -> R) (temp0 : Z) (k : nat) :
  (2 <= k)%nat ->
  snd (get_coeffs GH year)
  = Ok (map (g_row f temp0) (seq 0 k), map (h_row f temp0) (seq 0 k)) ->
  let g10 := f (temp0 + 1 + g_offset 1 0)%Z in
  let g11 := f (temp0 + 1 + g_offset 1 1)%Z in
  let h11 := f (temp0 + 1 + h_offset 1 1)%Z in
  compute_pos_centered_dipole_north_pole GH year
  = Ok (acos (- g10 / sqrt (g10 ^ 2 + g11 ^ 2 + h11 ^ 2)), arctan2 h11 g11 - PI).
Proof.
  intros Hk Hc g10 g11 h11. unfold compute_pos_centered_dipole_north_pole.
  rewrite Hc. cbn [bind].
  rewrite length_map, length_seq.
  destruct (Nat.eqb_spec k 0); [lia|].
  rewrite !entry_g_rows, entry_h_rows by lia. cbn [bind number].
  reflexivity.
Qed.

(** C6. For a year in which [get_coeffs] returns coefficients that are
    not empty, the three coefficients of degree 1 are numbers and
    [compute_pos_centered_dipole_north_pole] returns
    [(arccos(-g10 / B0), arctan2(h11, g11) - pi)] with
    [B0 = sqrt(g10^2 + g11^2 + h11^2)]; the colatitude lies in [[0, pi]]
    and the longitude in the range of [arctan2] moved down by [pi], that
    is in [[-2 pi, 0]], not in [[0, 2 pi)]. *)
Theorem dipole_pole_formula (year : R) (g h : list row) :
  snd (get_coeffs GH year) = Ok (g, h) ->
  g <> [] ->
  exists g10 g11 h11 : R,
    entry g 1 0 = Ok (Some g10)
    /\ entry g 1 1 = Ok (Some g11)
    /\ entry h 1 1 = Ok (Some h11)
    /\ let B0 := sqrt (g10 ^ 2 + g11 ^ 2 + h11 ^ 2) in
       compute_pos_centered_dipole_north_pole GH year
       = Ok (acos (- g10 / B0), arctan2 h11 g11 - PI)
       /\ 0 <= acos (- g10 / B0) <= PI
       /\ - (2 * PI) <= arctan2 h11 g11 - PI <= 0.
Proof.
  intros Hc Hne.
  assert (Hd : 1900 <= year <= 2030).
  { pose proof (get_coeffs_out_of_range GH year) as Hout.
    destruct (Rlt_dec year 1900) as [Hlt|Hlt].
    - rewrite (Hout (or_introl Hlt)) in Hc. cbn [snd] in Hc. congruence.
    - destruct (Rgt_dec year 2030) as [Hgt|Hgt].
      + rewrite (Hout (or_intror Hgt)) in Hc. cbn [snd] in Hc. congruence.
      + lra. }
  destruct (get_coeffs_rows GH year g h Hd Hc) as [Hg Hh].
  set (r := snd (select year)) in *.
  set (f := value_of (blend GH r)) in *.
  assert (Hk : (2 <= nmx r + 1)%nat).
  { destruct (select_degree year) as [E|E]; fold r in E; rewrite E; lia. }
  exists (f (ll r - 1 + 1 + g_offset 1 0)%Z),
         (f (ll r - 1 + 1 + g_offset 1 1)%Z),
         (f (ll r - 1 + 1 + h_offset 1 1)%Z).
  rewrite Hg, Hh.
  rewrite !entry_g_rows, entry_h_rows by lia.
  repeat split; try reflexivity.
  - apply (pole_of_rows year f (ll r - 1) (nmx r + 1) Hk).
    rewrite Hc, Hg, Hh. reflexivity.
  - apply acos_bound.
  - apply acos_bound.
  - pose proof (arctan2_bound (f (ll r - 1 + 1 + h_offset 1 1)%Z)
                              (f (ll r - 1 + 1 + g_offset 1 1)%Z)). lra.
  - pose proof (arctan2_bound (f (ll r - 1 + 1 + h_offset 1 1)%Z)
                              (f (ll r - 1 + 1 + g_offset 1 1)%Z)). lra.
Qed.

(** With the whole table the pole exists in every accepted year. *)
Lemma pole_exists (year : R) :
  1900 <= year <= 2030 ->
  (3645 <= length GH)%nat ->
  exists colat long : R,
    compute_pos_centered_dipole_north_pole GH year = Ok (colat, long).
Proof.
  intros Hd Hlen.
  pose proof (get_coeffs_total GH year Hd Hlen) as Hc. cbv zeta in Hc.
  assert (Hk : (2 <= nmx (snd (select year)) + 1)%nat).
  { destruct (select_degree year) as [E|E]; rewrite E; lia. }
  pose proof (pole_of_rows year _ _ _ Hk Hc) as Hp. cbv zeta in Hp.
  eexists; eexists; exact Hp.
Qed.

End PoleFacts.

(** ** coord_transforms.py: the transforms *)

Section TransformFacts.

Import IgrfCoeffs CoordTransforms.

Local Open Scope R_scope.

Variable GH : list R.
Variable RE_M : R.
Variable pymap3d_geodetic2ecef : vec3 -> vec3.
Variable pymap3d_ecef2geodetic : vec3 -> vec3.

Lemma length_as_arrays {A : Type} (v : py A) :
  length (as_arrays v) = elements (shape_of v).
Proof. destruct v; reflexivity. Qed.

Lemma as_arrays_py_map {A B : Type} (f : A -> B) (v : py A) :
  as_arrays (py_map f v) = map f (as_arrays v).
Proof. destruct v; reflexivity. Qed.

Lemma ecef2eccdf_with_pole (geoc : py vec3) (year colat long : R) :
  compute_pos_centered_dipole_north_pole GH year = Ok (colat, long) ->
  ecef2eccdf GH geoc year = Ok (map (rotate_geoc_cd colat long) (as_arrays geoc)).
Proof.
  intros Hp. unfold ecef2eccdf. rewrite Hp. reflexivity.
Qed.

Lemma eccdf2ecef_with_pole (cd : py vec3) (year colat long : R) :
  compute_pos_centered_dipole_north_pole GH year = Ok (colat, long) ->
  eccdf2ecef GH cd year = Ok (map (rotate_cd_geoc colat long) (as_arrays cd)).
Proof.
  intros Hp. unfold eccdf2ecef. rewrite Hp. reflexivity.
Qed.

Lemma geodetic2cd_with_pole (gg : py vec3) (decimals : Z) (year colat long : R) :
  compute_pos_centered_dipole_north_pole GH year = Ok (colat, long) ->
  geodetic2cd GH RE_M pymap3d_geodetic2ecef gg decimals year
  = Ok (map (fun p => cd_of_cartesian RE_M decimals
                        (rotate_geoc_cd colat long (ecef_of_geodetic_km pymap3d_geodetic2ecef p)))
            (as_arrays gg)).
Proof.
  intros Hp. unfold geodetic2cd.
  rewrite (ecef2eccdf_with_pole _ _ _ _ Hp). cbn [bind as_arrays].
  rewrite !map_map. reflexivity.
Qed.

Lemma cd2geodetic_with_pole (cd : py vec3) (decimals : Z) (year colat long : R) :
  compute_pos_centered_dipole_north_pole GH year = Ok (colat, long) ->
  (forall l, cd <> PyList l) ->
  cd2geodetic GH RE_M pymap3d_ecef2geodetic cd decimals year
  = Ok (map (fun p => round3 decimals
                        (pymap3d_ecef2geodetic
                           (rotate_cd_geoc colat long (cartesian_of_cd RE_M p))))
            (as_arrays cd)).
Proof.
  intros Hp Hnl. unfold cd2geodetic.
  destruct cd as [p|l|ps].
  - cbn [bind]. rewrite (eccdf2ecef_with_pole _ _ _ _ Hp). reflexivity.
  - exfalso. exact (Hnl l eq_refl).
  - cbn [bind]. rewrite (eccdf2ecef_with_pole _ _ _ _ Hp). cbn [bind as_arrays].
    rewrite !map_map. reflexivity.
Qed.

(** [cd2geodetic] does not take Python lists. *)
Lemma cd2geodetic_list (l : list vec3) (decimals : Z) (year : R) :
  cd2geodetic GH RE_M pymap3d_ecef2geodetic (PyList l) decimals year = Raise TypeError.
Proof. reflexivity. Qed.

(** One instant gives one subsolar point. *)
Lemma subsol_an_instant (t : py Helpers.datetime) (d : Helpers.datetime) :
  an_instant t d ->
  (ss <- Helpers.subsol t ;; to_float ss) = Ok (Helpers.subsol_point d).
Proof.
  intros [[-> | ->] Hy]; unfold Helpers.subsol; cbn [forallb];
    rewrite Hy; reflexivity.
Qed.

(** An array against the array of one element that [geodetic2cd] makes
    of the subsolar point. *)
Lemma broadcast2_one (f : R -> R -> R) (a : list R) (y : R) :
  broadcast2 f a [y] = Ok (map (fun x => f x y) a).
Proof.
  unfold broadcast2. destruct a as [|x [|x' a]]; reflexivity.
Qed.

Lemma mlon2mlt_with_pole (mlon_cd : py R) (t : py Helpers.datetime)
      (d : Helpers.datetime) (ssheight colat long : R) :
  compute_pos_centered_dipole_north_pole GH default_year = Ok (colat, long) ->
  an_instant t d ->
  let ss := Helpers.subsol_point d in
  let cd := cd_of_cartesian RE_M 2
              (rotate_geoc_cd colat long (ecef_of_geodetic_km pymap3d_geodetic2ecef (fst ss, snd ss, ssheight))) in
  mlon2mlt GH RE_M pymap3d_geodetic2ecef mlon_cd t ssheight
  = Ok (map (fun m => np_mod ((180 + m - snd (fst cd)) / 15) 24)
            (as_arrays mlon_cd)).
Proof.
  intros Hp Ht ss cd. unfold mlon2mlt.
  pose proof (subsol_an_instant t d Ht) as Hss.
  destruct (Helpers.subsol t) as [s|e]; [|discriminate].
  cbn [bind] in Hss |- *. rewrite Hss. cbn [bind].
  fold ss. destruct ss as [sslat sslon] eqn:Ess.
  rewrite (geodetic2cd_with_pole _ _ _ _ _ Hp). cbn [bind as_arrays map].
  cbn [fst snd] in cd. fold cd.
  destruct mlon_cd as [m|ms|ms]; cbn [as_arrays map].
  - reflexivity.
  - apply broadcast2_one.
  - apply broadcast2_one.
Qed.

End TransformFacts.

(** ** coord_transforms.py: the claims *)

Section TransformClaims.

Import IgrfCoeffs CoordTransforms.

Local Open Scope R_scope.

Variable GH : list R.
Variable RE_M : R.
Variable pymap3d_geodetic2ecef : vec3 -> vec3.
Variable pymap3d_ecef2geodetic : vec3 -> vec3.

(** C10. [mlon2mlt] takes the dipole pole of the year 2021.0 for every
    instant: one pole, computed from the coefficients of 2021.0, serves
    all instants, and the instant enters only through its subsolar
    point. *)
Theorem mlon2mlt_uses_pole_of_2021 :
  (3645 <= length GH)%nat ->
  exists colat long : R,
    compute_pos_centered_dipole_north_pole GH 2021 = Ok (colat, long)
    /\ forall (mlon_cd : py R) (t : py Helpers.datetime) (d : Helpers.datetime)
              (ssheight : R),
         an_instant t d ->
         let ss := Helpers.subsol_point d in
         let ss_geoc := pymap3d_geodetic2ecef (fst ss, snd ss, ssheight * 1000) in
         let ss_cd := cd_of_cartesian RE_M 2 (rotate_geoc_cd colat long ss_geoc) in
         mlon2mlt GH RE_M pymap3d_geodetic2ecef mlon_cd t ssheight
         = Ok (map (fun m => np_mod ((180 + m - snd (fst ss_cd)) / 15) 24)
                   (as_arrays mlon_cd)).
Proof.
  intros Hlen.
  destruct (pole_exists GH 2021 ltac:(lra) Hlen) as [colat [long Hp]].
  exists colat, long. split; [exact Hp|].
  intros mlon_cd t d ssheight Ht.
  exact (mlon2mlt_with_pole GH RE_M pymap3d_geodetic2ecef
           mlon_cd t d ssheight colat long Hp Ht).
Qed.


(** The three numbers [geodetic2cd] returns for one position, from its
    Cartesian coordinates in the dipole frame. *)
Lemma cd_of_cartesian_roundings (decimals : Z) (x y z : R) :
  cd_of_cartesian RE_M decimals (x, y, z)
  = let r := sqrt (x * x + y * y + z * z) in
    (np_round (90 - np_round (rad2deg (acos (z / r))) 2) decimals,
     np_round (rad2deg (arctan2 y x)) 2,
     np_round (np_round r 2 - RE_M) decimals).
Proof. reflexivity. Qed.

(** Rounding to two decimals and then to none is not rounding once. *)
Lemma rounding_twice_differs :
  np_round (90 - np_round 88.504 2) 0 = 2 /\ np_round (90 - 88.504) 0 = 1.
Proof.
  rewrite !np_round_0, np_round_2. split.
  - replace (88.504 * 100) with (IZR 8850 + 2 / 5) by lra.
    rewrite (rint_down 8850 (IZR 8850 + 2 / 5)) by lra.
    replace (90 - IZR 8850 / 100) with (IZR 1 + 1 / 2) by lra.
    rewrite rint_half. cbn [Z.even Z.add Pos.add]. reflexivity.
  - apply (rint_down 1). lra.
Qed.

(** With [decimals = 0] the longitude of a point of dipole longitude 0.3
    degrees comes back as 0.3. *)
Lemma longitude_not_rounded_to_decimals :
  snd (fst (cd_of_cartesian RE_M 0 (cos (deg2rad 0.3), sin (deg2rad 0.3), 0))) = 0.3.
Proof.
  rewrite cd_of_cartesian_roundings. cbv zeta. cbn [fst snd].
  rewrite arctan2_sin_cos.
  - rewrite rad2deg_deg2rad, np_round_2.
    replace (0.3 * 100) with (IZR 30) by lra.
    rewrite rint_integer. lra.
  - pose proof PI_RGT_0. unfold deg2rad. lra.
Qed.

(** C7. What [geodetic2cd] does of its [decimals]: the colatitude, the
    longitude and the radius are rounded to 2 decimals inside
    [ecef2spherical], whatever [decimals] is; the latitude and the
    altitude computed from them are then rounded a second time, to
    [decimals]; the longitude is returned as [ecef2spherical] rounded
    it, so that it does not depend on [decimals]. Two roundings are not
    one: for a colatitude of 88.504 degrees and [decimals = 0] they give
    the latitude 2, one rounding of the latitude gives 1; and with
    [decimals = 0] a dipole longitude of 0.3 degrees is returned as
    0.3. *)
Theorem geodetic2cd_rounding (gg : py vec3) (decimals decimals' : Z) (year : R) :
  geodetic2cd GH RE_M pymap3d_geodetic2ecef gg decimals year
  = (cd <- ecef2eccdf GH
             (NdArray (map (ecef_of_geodetic_km pymap3d_geodetic2ecef) (as_arrays gg)))
             year ;;
     Ok (map (fun v : vec3 =>
                let '(x, y, z) := v in
                let r := sqrt (x * x + y * y + z * z) in
                (np_round (90 - np_round (rad2deg (acos (z / r))) 2) decimals,
                 np_round (rad2deg (arctan2 y x)) 2,
                 np_round (np_round r 2 - RE_M) decimals))
             cd))
  /\ (out <- geodetic2cd GH RE_M pymap3d_geodetic2ecef gg decimals year ;;
      Ok (map (fun c : vec3 => snd (fst c)) out))
     = (out <- geodetic2cd GH RE_M pymap3d_geodetic2ecef gg decimals' year ;;
        Ok (map (fun c : vec3 => snd (fst c)) out))
  /\ np_round (90 - np_round 88.504 2) 0 <> np_round (90 - 88.504) 0
  /\ snd (fst (cd_of_cartesian RE_M 0 (cos (deg2rad 0.3), sin (deg2rad 0.3), 0)))
     <> np_round 0.3 0.
Proof.
  split; [|split; [|split]].
  - unfold geodetic2cd.
    destruct (ecef2eccdf GH _ year) as [cd|e]; [|reflexivity]. cbn [bind].
    f_equal. apply map_ext. intros [[x y] z]. apply cd_of_cartesian_roundings.
  - unfold geodetic2cd.
    destruct (ecef2eccdf GH _ year) as [cd|e]; [|reflexivity]. cbn [bind].
    f_equal. rewrite !map_map. apply map_ext. intros [[x y] z].
    rewrite !cd_of_cartesian_roundings. reflexivity.
  - destruct rounding_twice_differs as [-> ->]. lra.
  - rewrite longitude_not_rounded_to_decimals, np_round_0.
    rewrite (rint_down 0 0.3) by lra. lra.
Qed.

(** C8, amended. Every transform returns arrays: for a list or an array
    of [N] positions (or longitudes) arrays of length [N], and for a
    single value arrays of one element, not scalars; [cd2geodetic] is
    taken on single values and arrays. [subsol] alone returns what it
    was given: two numbers for a [datetime], two arrays of length [N]
    for an array of [N] instants; it raises on a list. *)
Theorem transforms_return_arrays (decimals : Z) (year : R) :
  1900 <= year <= 2030 ->
  (3645 <= length GH)%nat ->
  (forall gg : py vec3, exists out,
      geodetic2cd GH RE_M pymap3d_geodetic2ecef gg decimals year = Ok out
      /\ length out = elements (shape_of gg))
  /\ (forall cd : py vec3, (forall l, cd <> PyList l) -> exists out,
      cd2geodetic GH RE_M pymap3d_ecef2geodetic cd decimals year = Ok out
      /\ length out = elements (shape_of cd))
  /\ (forall geoc : py vec3, exists out,
      ecef2eccdf GH geoc year = Ok out
      /\ length out = elements (shape_of geoc))
  /\ (forall cd : py vec3, exists out,
      eccdf2ecef GH cd year = Ok out
      /\ length out = elements (shape_of cd))
  /\ (forall (mlon_cd : py R) (t : py Helpers.datetime) (d : Helpers.datetime)
             (ssheight : R),
      an_instant t d -> exists out,
      mlon2mlt GH RE_M pymap3d_geodetic2ecef mlon_cd t ssheight = Ok out
      /\ length out = elements (shape_of mlon_cd))
  /\ (forall t : py Helpers.datetime,
      (forall l, t <> PyList l) ->
      forallb Helpers.year_in_range (as_arrays t) = true -> exists out,
      Helpers.subsol t = Ok out
      /\ shape_of out = shape_of t)
  /\ (forall l : list Helpers.datetime,
      Helpers.subsol (PyList l) = Raise ValueError).
Proof.
  intros Hy Hlen.
  destruct (pole_exists GH year Hy Hlen) as [colat [long Hp]].
  destruct (pole_exists GH default_year ltac:(unfold default_year; lra) Hlen)
    as [colat1 [long1 Hp1]].
  repeat split.
  - intros gg. eexists. split.
    + exact (geodetic2cd_with_pole GH RE_M pymap3d_geodetic2ecef gg decimals
               year colat long Hp).
    + rewrite length_map. apply length_as_arrays.
  - intros cd Hnl. eexists. split.
    + exact (cd2geodetic_with_pole GH RE_M pymap3d_ecef2geodetic cd decimals
               year colat long Hp Hnl).
    + rewrite length_map. apply length_as_arrays.
  - intros geoc. eexists. split.
    + exact (ecef2eccdf_with_pole GH geoc year colat long Hp).
    + rewrite length_map. apply length_as_arrays.
  - intros cd. eexists. split.
    + exact (eccdf2ecef_with_pole GH cd year colat long Hp).
    + rewrite length_map. apply length_as_arrays.
  - intros mlon_cd t d ssheight Ht. eexists. split.
    + exact (mlon2mlt_with_pole GH RE_M pymap3d_geodetic2ecef mlon_cd t d
               ssheight colat1 long1 Hp1 Ht).
    + rewrite length_map. apply length_as_arrays.
  - intros t Hnl Hyears. destruct t as [d|l|ds].
    + cbn [as_arrays] in Hyears. unfold Helpers.subsol. rewrite Hyears.
      eexists. split; reflexivity.
    + exfalso. exact (Hnl l eq_refl).
    + cbn [as_arrays] in Hyears. unfold Helpers.subsol. rewrite Hyears.
      eexists. split; [reflexivity|]. cbn [shape_of]. rewrite length_map.
      reflexivity.
Qed.

End TransformClaims.

(** ** mlon2mlt in binary64 *)

Section MltInBinary64.

Import PrimFloat.

Local Open Scope float_scope.

Local Set Warnings "-inexact-float".

(** C9. The formula of the claim is the one of line 122, but numpy
    evaluates it in binary64, and there the result is not always in
    [[0, 24)]: where [180 + mlon_cd - sslon_cd] is rounded to a negative
    number close to 0, the quotient by 15 is a negative number whose
    remainder, moved by 24, is rounded to 24.0. With [sslon_cd = 67.38],
    the dipole longitude of the subsolar point of 2021-12-09 12:00 UTC
    (the instant of the package test), the longitude
    [-112.62000000000002] gives 24.0, which is not below 24; so does
    [-179.9] with [sslon_cd = 0.1]. Nor are 360 degrees more always the
    same local time: for [10.12] and [10.12 + 360] the two results
    differ. *)
Theorem mlon2mlt_returns_24 :
  Float64.mlt (-112.62000000000002) 67.38 = 24
  /\ Float64.lt (Float64.mlt (-112.62000000000002) 67.38) 24 = false
  /\ Float64.mlt (-179.9) 0.1 = 24
  /\ Float64.eq (Float64.mlt (10.12 + 360) 67.38) (Float64.mlt 10.12 67.38)
     = false.
Proof.
  repeat split; vm_compute; reflexivity.
Qed.

End MltInBinary64.

(** ** load_coeffs: the claim *)

Section LoadClaims.

Import IgrfCoeffs.

Variable num : Type.
Variable zero : num.
Variable float_of_string : string -> option num.

(** C3. On a file whose selected lines parse to a table of at least
    120 rows, every row of [ncols] values, [load_coeffs] returns, in this
    order, the first 120 rows of each of the first 19 epoch columns (the
    rows of index 120 and more of these columns are left out), every row
    of each epoch column of index 19 and more, and one zero, the last
    element of the flat table. *)
Theorem load_coeffs_flat_layout (text : list string) (rows : list (list num))
        (ncols : nat) :
  parse_lines float_of_string text = Ok rows ->
  Forall (fun r => length r = ncols) rows ->
  (120 <= length rows)%nat ->
  load_coeffs zero float_of_string text = Ok (flat_layout zero rows ncols)
  /\ length (flat_layout zero rows ncols)
     = (120 * Nat.min 19 ncols + length rows * (ncols - 19) + 1)%nat
  /\ nth (length (flat_layout zero rows ncols) - 1) (flat_layout zero rows ncols) zero
     = zero.
Proof.
  intros Hparse Hrect Hrows.
  split; [|split].
  - unfold load_coeffs. rewrite Hparse. cbn [bind].
    apply flatten_table_layout; assumption.
  - apply flat_layout_length. exact Hrows.
  - unfold flat_layout. rewrite app_assoc.
    rewrite length_app. cbn [length].
    rewrite app_nth2 by lia.
    replace (_ - _)%nat with 0%nat by lia. reflexivity.
Qed.

End LoadClaims.

(** ** The round trip *)

Section Distances.

Import CoordTransforms.

Local Open Scope R_scope.








Lemma distance_sym (a b : vec3) : distance a b = distance b a.
Proof.
  destruct a as [[a1 a2] a3], b as [[b1 b2] b3].
  unfold distance, norm. cbn [fst snd]. f_equal. ring.
Qed.

Lemma distance_refl (a : vec3) : distance a a = 0.
Proof.
  destruct a as [[a1 a2] a3]. unfold distance, norm. cbn [fst snd].
  rewrite !Rminus_diag. replace (0 * 0 + 0 * 0 + 0 * 0) with 0 by ring.
  apply sqrt_0.
Qed.




End Distances.

Section RoundTripDistance.

Import IgrfCoeffs CoordTransforms.

Local Open Scope R_scope.

Variable RE_M : R.




End RoundTripDistance.

Section RoundTripPosition.

Import IgrfCoeffs CoordTransforms.

Local Open Scope R_scope.

Variable GH : list R.
Variable RE_M : R.
Variable pymap3d_geodetic2ecef : vec3 -> vec3.
Variable pymap3d_ecef2geodetic : vec3 -> vec3.







End RoundTripPosition.

Section SphereFacts.

Import CoordTransforms.

Local Open Scope R_scope.



End SphereFacts.



(** ** Where the round trip fails *)

Section RoundTripFails.

Import IgrfCoeffs CoordTransforms.

Local Open Scope R_scope.





End RoundTripFails.

Section NearTheAxis.

Import IgrfCoeffs CoordTransforms.

Local Open Scope R_scope.




End NearTheAxis.

Section EllipsoidDisplacement.

Import CoordTransforms.

Local Open Scope R_scope.


Variable E_SQ : R.
Hypothesis E_SQ_of_the_Earth : 0 <= E_SQ <= 0.0067.



End EllipsoidDisplacement.

Section PrecisionLost.

Import IgrfCoeffs CoordTransforms.

Local Open Scope R_scope.




End PrecisionLost.

Section TheClaimFails.

Import IgrfCoeffs CoordTransforms.

Local Open Scope R_scope.




(** [arctan2] does not reach [- pi]. *)
Lemma arctan2_above (y x : R) : - PI < arctan2 y x.
Proof.
  pose proof PI_RGT_0 as Hpi. unfold arctan2.
  pose proof (atan_bound (y / x)) as Hb.
  destruct (Rlt_dec 0 x) as [Hx|Hx]; [lra|].
  destruct (Rlt_dec x 0) as [Hx'|Hx'].
  - destruct (Rle_dec 0 y) as [Hy|Hy]; [lra|].
    assert (Hq : 0 < y / x).
    { replace (y / x) with ((- y) * / (- x)) by (field; lra).
      apply Rmult_lt_0_compat; [lra|]. apply Rinv_0_lt_compat. lra. }
    pose proof (atan_increasing 0 (y / x) Hq) as Hi. rewrite atan_0 in Hi. lra.
  - destruct (Rlt_dec 0 y); [lra|]. destruct (Rlt_dec y 0); lra.
Qed.

(** On the sphere of the radius of WGS84, squared eccentricity 0, the
    formula has an inverse with latitudes, longitudes and altitudes in
    those ranges. *)
Lemma sphere_ecef2geodetic_in_range (v : vec3) :
  -90 <= fst (fst (Examples.sphere_ecef2geodetic v)) <= 90
  /\ -180 < snd (fst (Examples.sphere_ecef2geodetic v)) <= 180
  /\ - Examples.RE_M <= snd (Examples.sphere_ecef2geodetic v).
Proof.
  destruct v as [[x y] z]. unfold Examples.sphere_ecef2geodetic. cbn [fst snd].
  pose proof (rad2deg_acos_bound (z / sqrt (x * x + y * y + z * z))) as Ha.
  pose proof (arctan2_above y x) as Hlo.
  pose proof (arctan2_bound y x) as [_ Hhi].
  pose proof (sqrt_pos (x * x + y * y + z * z)) as Hr.
  pose proof PI_RGT_0 as Hpi.
  assert (Hk : 0 < 180 / PI) by (apply Rdiv_lt_0_compat; lra).
  assert (E : PI * (180 / PI) = 180) by (field; lra).
  unfold rad2deg in *.
  assert (H1 : - PI * (180 / PI) < arctan2 y x * (180 / PI))
    by (apply Rmult_lt_compat_r; lra).
  assert (H2 : arctan2 y x * (180 / PI) <= PI * (180 / PI))
    by (apply Rmult_le_compat_r; lra).
  repeat split; lra.
Qed.

End TheClaimFails.

(** ** The claims on the example data *)

Section Witnesses.

Import IgrfCoeffs CoordTransforms.

Local Open Scope R_scope.

Lemma table_length : length Examples.table = 3646%nat.
Proof. unfold Examples.table. rewrite length_map, length_seq. reflexivity. Qed.

Lemma table_nth (i : nat) :
  (i < 3646)%nat -> nth i Examples.table 0 = IZR (Z.of_nat (S i)).
Proof.
  intros Hi. unfold Examples.table. rewrite nth_map_seq by exact Hi. reflexivity.
Qed.

Lemma parsed_rows : Forall (fun r : list Z => length r = 20%nat) Examples.parsed.
Proof.
  apply Forall_forall. intros r Hr. apply repeat_spec in Hr. subst r. reflexivity.
Qed.

(** The point of latitude 0, longitude 0 and altitude 0 lies on the
    first axis at the distance of the semimajor axis. *)
Lemma geodetic2ecef_origin (RE_M E_SQ : R) :
  geodetic2ecef RE_M E_SQ (0, 0, 0 * 1000) = (RE_M, 0, 0).
Proof.
  unfold geodetic2ecef, deg2rad. rewrite !Rmult_0_l, sin_0, cos_0.
  replace (1 - E_SQ * 0 ^ 2) with 1 by ring.
  rewrite sqrt_1, Rinv_1. f_equal; [f_equal|]; ring.
Qed.

Lemma load_coeffs_flat_layout_witness :
  load_coeffs 0%Z Examples.digit Examples.text
  = Ok (flat_layout 0%Z Examples.parsed 20)
  /\ length (flat_layout 0%Z Examples.parsed 20) = 2401%nat.
Proof.
  destruct (load_coeffs_flat_layout Z 0%Z Examples.digit
              Examples.text Examples.parsed 20) as [Hload [Hlen _]].
  - vm_compute. reflexivity.
  - exact parsed_rows.
  - vm_compute. lia.
  - split; [exact Hload | exact Hlen].
Defined.

Lemma get_coeffs_secular_extrapolation_witness :
  exists g h : list row,
    snd (get_coeffs Examples.table 2021) = Ok (g, h)
    /\ entry g 1 0 = Ok (Some (3256 + (2021 - 2020) * 3451)).
Proof.
  destruct (get_coeffs_secular_extrapolation Examples.table 2021)
    as [g [h [Hc [_ [_ [Hg _]]]]]].
  - lra.
  - rewrite table_length. lia.
  - exists g, h. split; [exact Hc|].
    rewrite (Hg 1%nat 0%nat) by lia.
    cbv zeta.
    change (Z.to_nat (3255 + g_offset 1 0)) with 3255%nat.
    rewrite !table_nth by lia. reflexivity.
Defined.

Lemma get_coeffs_continuous_at_regime_boundaries_witness :
  continuous_from_below (g_entry Examples.table 1 0) 1995
  /\ continuous_from_below (h_entry Examples.table 13 13) 2020.
Proof.
  destruct (get_coeffs_continuous_at_regime_boundaries Examples.table)
    as [H1995 H2020].
  - rewrite table_length. lia.
  - split.
    + apply (H1995 1%nat 0%nat); lia.
    + apply (H2020 13%nat 13%nat); lia.
Defined.


Lemma dipole_pole_formula_witness :
  exists colat long : R,
    compute_pos_centered_dipole_north_pole Examples.table 2021 = Ok (colat, long)
    /\ 0 <= colat <= PI
    /\ - (2 * PI) <= long <= 0.
Proof.
  pose proof (get_coeffs_total Examples.table 2021 ltac:(lra)
                ltac:(rewrite table_length; lia)) as Hc.
  cbv zeta in Hc.
  destruct (dipole_pole_formula Examples.table 2021 _ _ Hc)
    as [g10 [g11 [h11 [_ [_ [_ Hpole]]]]]].
  - intros Hnil. apply (f_equal (@length row)) in Hnil.
    rewrite length_map, length_seq, Nat.add_1_r in Hnil. discriminate.
  - cbv zeta in Hpole. destruct Hpole as [Hp [Hcolat Hlong]].
    eexists; eexists. split; [exact Hp|]. split; assumption.
Defined.

Lemma transforms_return_arrays_witness :
  (exists out,
      geodetic2cd Examples.table Examples.RE_M
        (geodetic2ecef Examples.RE_M Examples.E_SQ)
        (PyList [(0, -180, 0); (0, -170, 0)]) 2 2021 = Ok out
      /\ length out = 2%nat)
  /\ (exists out,
      cd2geodetic Examples.table Examples.RE_M Examples.same_point
        (PyScalar (0, 0, 0)) 2 2021 = Ok out
      /\ length out = 1%nat).
Proof.
  destruct (transforms_return_arrays Examples.table Examples.RE_M
              (geodetic2ecef Examples.RE_M Examples.E_SQ) Examples.same_point
              2 2021) as [Hfwd [Hback _]].
  - lra.
  - rewrite table_length. lia.
  - split.
    + exact (Hfwd (PyList [(0, -180, 0); (0, -170, 0)])).
    + apply (Hback (PyScalar (0, 0, 0))). intros l. discriminate.
Defined.

Lemma noon_is_an_instant : an_instant (PyScalar Examples.noon) Examples.noon.
Proof. split; [left; reflexivity | reflexivity]. Qed.

Lemma mlon2mlt_uses_pole_of_2021_witness :
  exists colat long : R,
    compute_pos_centered_dipole_north_pole Examples.table 2021 = Ok (colat, long)
    /\ exists sslon_cd : R,
         mlon2mlt Examples.table Examples.RE_M
           (geodetic2ecef Examples.RE_M Examples.E_SQ)
           (PyScalar 10.12) (PyScalar Examples.noon) default_ssheight
         = Ok [np_mod ((180 + 10.12 - sslon_cd) / 15) 24].
Proof.
  destruct (mlon2mlt_uses_pole_of_2021 Examples.table Examples.RE_M
              (geodetic2ecef Examples.RE_M Examples.E_SQ))
    as [colat [long [Hp Hmlt]]].
  - rewrite table_length. lia.
  - exists colat, long. split; [exact Hp|].
    eexists.
    exact (Hmlt (PyScalar 10.12) (PyScalar Examples.noon) Examples.noon
             default_ssheight noon_is_an_instant).
Defined.


(** C8, as stated, fails on a single position: [geodetic2cd] returns
    arrays of one element, as the package tests read them
    ([lat_arr[0]]), not single values. *)
Lemma geodetic2cd_scalar_gives_array :
  exists out : list vec3,
    geodetic2cd Examples.table Examples.RE_M
      (geodetic2ecef Examples.RE_M Examples.E_SQ)
      (PyScalar (80, 110, 10.123)) 2 2021
    = Ok out
    /\ shape_of (PyScalar (80, 110, 10.123)) = Single
    /\ shape_of (NdArray out) = Sequence 1
    /\ shape_of (NdArray out) <> shape_of (PyScalar (80, 110, 10.123)).
Proof.
  destruct (pole_exists Examples.table 2021 ltac:(lra)
              ltac:(rewrite table_length; lia)) as [colat [long Hp]].
  eexists. split.
  - exact (geodetic2cd_with_pole Examples.table Examples.RE_M
             (geodetic2ecef Examples.RE_M Examples.E_SQ)
             (PyScalar (80, 110, 10.123)) 2 2021 colat long Hp).
  - cbn. repeat split. discriminate.
Qed.

End Witnesses.

(** * Further properties *)

(** ** get_coeffs: interpolation, shape and bounds *)

Section MoreCoeffFacts.

Import IgrfCoeffs.

Local Open Scope R_scope.

(** The variables of the loop in the interval of five years that starts
    at the epoch [1900 + 5 k], before 1995.0 and from 1995.0 on. *)
Lemma select_interval_before_1995 (k : Z) (date : R) :
  (0 <= k <= 18)%Z ->
  1900 + 5 * IZR k <= date < 1900 + 5 * (IZR k + 1) ->
  snd (select date)
  = {| t := 0.2 * (date - 1900) - IZR k;
       tc := 1 - (0.2 * (date - 1900) - IZR k);
       ll := 120 * k; nmx := 10; nc := 120 |}.
Proof.
  intros [Hk0 Hk18] Hd.
  apply IZR_le in Hk0. apply IZR_le in Hk18.
  unfold select.
  destruct (Rge_dec date 2020); [lra|].
  destruct (Rlt_dec date 1995); [|lra].
  rewrite (py_int_eq k) by lra. reflexivity.
Qed.

Lemma select_interval_from_1995 (k : Z) (date : R) :
  (19 <= k <= 23)%Z ->
  1900 + 5 * IZR k <= date < 1900 + 5 * (IZR k + 1) ->
  snd (select date)
  = {| t := 0.2 * (date - 1900) - IZR k;
       tc := 1 - (0.2 * (date - 1900) - IZR k);
       ll := 2280 + 195 * (k - 19); nmx := 13; nc := 195 |}.
Proof.
  intros [Hk0 Hk1] Hd.
  pose proof (IZR_le _ _ Hk0) as H19. pose proof (IZR_le _ _ Hk1) as H23.
  unfold select.
  destruct (Rge_dec date 2020); [lra|].
  destruct (Rlt_dec date 1995); [lra|].
  rewrite (py_int_eq k) by lra.
  rewrite (py_int_eq (k - 19)).
  - reflexivity.
  - rewrite minus_IZR. lra.
  - rewrite minus_IZR. lra.
Qed.

Lemma offsets_in_degree (n m N : nat) :
  (1 <= n <= N)%nat -> (m <= n)%nat ->
  (0 <= g_offset n m <= Z.of_nat (N + 1) * Z.of_nat (N + 1) - 3)%Z
  /\ (0 <= h_offset n m <= Z.of_nat (N + 1) * Z.of_nat (N + 1) - 2)%Z.
Proof.
  intros Hn Hm. unfold g_offset, h_offset.
  destruct (m =? 0)%nat eqn:E.
  - apply Nat.eqb_eq in E. nia.
  - apply Nat.eqb_neq in E. nia.
Qed.

(** The entries of degree at least 1 in any accepted date, from the
    variables of the loop. *)
Lemma entries_blend (gh : list R) (date : R) (n m : nat) :
  1900 <= date <= 2030 ->
  (3645 <= length gh)%nat ->
  let r := snd (select date) in
  (1 <= n <= nmx r)%nat -> (m <= n)%nat ->
  g_entry gh n m date
  = Ok (Some (tc r * nth (Z.to_nat (ll r + g_offset n m)) gh 0
              + t r * nth (Z.to_nat (ll r + g_offset n m + nc r)) gh 0))
  /\ ((1 <= m)%nat ->
      h_entry gh n m date
      = Ok (Some (tc r * nth (Z.to_nat (ll r + h_offset n m)) gh 0
                  + t r * nth (Z.to_nat (ll r + h_offset n m + nc r)) gh 0))).
Proof.
  intros Hd Hlen r Hn Hm.
  pose proof (get_coeffs_total gh date Hd Hlen) as Hc. cbv zeta in Hc. fold r in Hc.
  pose proof (select_bounds date Hd) as Hb. cbv zeta in Hb. fold r in Hb.
  destruct Hb as [Hll [Hnc Hend]].
  destruct (offsets_in_degree n m (nmx r) Hn Hm) as [Hg Hh].
  assert (Hval : forall o : Z,
            (0 <= o <= Z.of_nat (nmx r + 1) * Z.of_nat (nmx r + 1) - 2)%Z ->
            value_of (blend gh r) (ll r - 1 + 1 + o)
            = tc r * nth (Z.to_nat (ll r + o)) gh 0
              + t r * nth (Z.to_nat (ll r + o + nc r)) gh 0).
  { intros o Ho. unfold value_of. rewrite blend_inside by lia.
    replace (ll r - 1 + 1 + o)%Z with (ll r + o)%Z by lia. reflexivity. }
  split.
  - unfold g_entry. rewrite Hc. cbn [bind fst].
    rewrite entry_g_rows by lia. rewrite Hval by lia. reflexivity.
  - intros Hm1. unfold h_entry. rewrite Hc. cbn [bind snd].
    rewrite entry_h_rows by lia. rewrite Hval by lia. reflexivity.
Qed.


(** X1. Between two epochs [get_coeffs] interpolates linearly: in the
    interval of five years that starts at the epoch [1900 + 5 k], up to
    2020.0, every coefficient is [(1 - w) * a + w * b] with the weight
    [w = 0.2 * (date - 1900) - k] in [[0, 1)], [a] the value of the block
    of the epoch in the flat table and [b] the value one block further.
    The blocks of the 19 epochs before 1995.0 start at [120 k] and hold
    120 values (degree 10), the later ones start at
    [2280 + 195 (k - 19)] and hold 195 (degree 13). *)
Theorem get_coeffs_interpolation (gh : list R) (date : R) (k : Z) :
  (3645 <= length gh)%nat ->
  (0 <= k <= 23)%Z ->
  1900 + 5 * IZR k <= date < 1900 + 5 * (IZR k + 1) ->
  let w := 0.2 * (date - 1900) - IZR k in
  let start := if (k <? 19)%Z then (120 * k)%Z else (2280 + 195 * (k - 19))%Z in
  let stride := if (k <? 19)%Z then 120%Z else 195%Z in
  let degree := if (k <? 19)%Z then 10%nat else 13%nat in
  0 <= w < 1
  /\ forall n m : nat, (1 <= n <= degree)%nat -> (m <= n)%nat ->
       g_entry gh n m date
       = Ok (Some ((1 - w) * nth (Z.to_nat (start + g_offset n m)) gh 0
                   + w * nth (Z.to_nat (start + g_offset n m + stride)) gh 0))
       /\ ((1 <= m)%nat ->
           h_entry gh n m date
           = Ok (Some ((1 - w) * nth (Z.to_nat (start + h_offset n m)) gh 0
                       + w * nth (Z.to_nat (start + h_offset n m + stride)) gh 0))).
Proof.
  intros Hlen Hk Hd w start stride degree.
  assert (H0 : 0 <= IZR k) by (apply IZR_le; lia).
  assert (H23 : IZR k <= 23) by (apply IZR_le; lia).
  split; [unfold w; lra|].
  intros n m Hn Hm.
  pose proof (entries_blend gh date n m ltac:(lra) Hlen) as He. cbv zeta in He.
  subst start stride degree.
  destruct (Z.ltb_spec k 19) as [Hlt|Hge].
  - rewrite (select_interval_before_1995 k date ltac:(lia) Hd) in He.
    cbn [t tc ll nmx nc] in He. apply He; assumption.
  - rewrite (select_interval_from_1995 k date ltac:(lia) Hd) in He.
    cbn [t tc ll nmx nc] in He. apply He; assumption.
Qed.

(** The degree of the model of a date: 10 before 1995.0, 13 from then
    on. *)
Lemma select_nmx (date : R) :
  nmx (snd (select date)) = if Rlt_dec date 1995 then 10%nat else 13%nat.
Proof.
  unfold select.
  destruct (Rge_dec date 2020); destruct (Rlt_dec date 1995);
    try reflexivity; lra.
Qed.

(** X2. The arrays [get_coeffs] returns in an accepted date are triangular:
    [N + 1] rows, [N] being 10 before 1995.0 and 13 from then on; row
    [n] of [h] has [n + 1] entries, the first of them [None]; row [n] of
    [g] has [n + 1] entries, all of them numbers, but row 0, which holds
    [None] and one number. *)
Theorem get_coeffs_triangular (gh : list R) (date : R) (g h : list row) :
  1900 <= date <= 2030 ->
  snd (get_coeffs gh date) = Ok (g, h) ->
  let N := if Rlt_dec date 1995 then 10%nat else 13%nat in
  length g = (N + 1)%nat /\ length h = (N + 1)%nat
  /\ (exists v, py_index g 0 = Ok [None; Some v])
  /\ forall n : nat, (n <= N)%nat ->
       exists gn hn : row,
         py_index g (Z.of_nat n) = Ok gn /\ py_index h (Z.of_nat n) = Ok hn
         /\ length hn = (n + 1)%nat
         /\ nth 0 hn None = None
         /\ (forall m, (1 <= m <= n)%nat -> exists v, nth m hn None = Some v)
         /\ ((1 <= n)%nat ->
             length gn = (n + 1)%nat
             /\ forall m, (m <= n)%nat -> exists v, nth m gn None = Some v).
Proof.
  intros Hd Hc N.
  destruct (get_coeffs_rows gh date g h Hd Hc) as [Hg Hh].
  rewrite select_nmx in Hg, Hh. fold N in Hg, Hh.
  set (f := value_of (blend gh (snd (select date)))) in *.
  set (temp0 := (ll (snd (select date)) - 1)%Z) in *.
  subst g h.
  split; [rewrite length_map, length_seq; reflexivity|].
  split; [rewrite length_map, length_seq; reflexivity|].
  split.
  { eexists. apply (rows_degree0 f temp0 (N + 1)). lia. }
  intros n Hn.
  exists (g_row f temp0 n), (h_row f temp0 n).
  rewrite !(py_index_nat (A := row) _ _ [])
    by (rewrite length_map, length_seq; lia).
  rewrite !nth_map_seq by lia. cbn [Nat.add].
  split; [reflexivity|]. split; [reflexivity|].
  split; [rewrite length_h_row; lia|].
  split; [reflexivity|].
  split.
  - intros m Hm. unfold h_row. destruct m as [|m]; [lia|]. cbn [nth].
    rewrite nth_map_seq by lia. eauto.
  - intros Hn1. split.
    + rewrite length_g_row. destruct (Nat.eqb_spec n 0); lia.
    + intros m Hm. unfold g_row. destruct (Nat.eqb_spec n 0); [lia|].
      cbn [app]. destruct m as [|m]; cbn [nth]; [eauto|].
      rewrite nth_map_seq by lia. eauto.
Qed.

End MoreCoeffFacts.

(** ** get_coeffs: the reads of a walk *)

Section WalkReads.

Import IgrfCoeffs.

Variable rd : Z -> result R.

(** A walk that returns has moved [temp] forward and every read between
    the two positions has returned. *)
Lemma walk_m_reads_ok (ms : list nat) (st st' : Z * row * row) :
  walk_m rd ms st = Ok st' ->
  (fst (fst st) <= fst (fst st'))%Z
  /\ forall i, (fst (fst st) <= i < fst (fst st'))%Z -> exists v, rd i = Ok v.
Proof.
  revert st. induction ms as [|m ms IH]; intros [[temp gn] hn] H.
  - inversion H; subst. cbn [fst]. split; [lia|]. intros i Hi. lia.
  - cbn [walk_m] in H. destruct (negb (m =? 0)%nat).
    + destruct (rd temp) as [a|] eqn:Ea; [|discriminate]. cbn [bind] in H.
      destruct (rd (temp + 1)) as [b|] eqn:Eb; [|discriminate]. cbn [bind] in H.
      destruct (IH _ H) as [Hle Hreads]. cbn [fst] in *.
      split; [lia|]. intros i Hi.
      destruct (Z.eq_dec i temp) as [->|]; [eauto|].
      destruct (Z.eq_dec i (temp + 1)) as [->|]; [eauto|].
      apply Hreads. lia.
    + destruct (rd temp) as [a|] eqn:Ea; [|discriminate]. cbn [bind] in H.
      destruct (IH _ H) as [Hle Hreads]. cbn [fst] in *.
      split; [lia|]. intros i Hi.
      destruct (Z.eq_dec i temp) as [->|]; [eauto|].
      apply Hreads. lia.
Qed.

Lemma walk_n_reads_ok (ns : list nat) (st st' : Z * list row * list row) :
  walk_n rd ns st = Ok st' ->
  (fst (fst st) <= fst (fst st'))%Z
  /\ forall i, (fst (fst st) <= i < fst (fst st'))%Z -> exists v, rd i = Ok v.
Proof.
  revert st. induction ns as [|n ns IH]; intros [[temp g] h] H.
  - inversion H; subst. cbn [fst]. split; [lia|]. intros i Hi. lia.
  - cbn [walk_n] in H.
    destruct (walk_m rd (seq 0 (n + 1)) _) as [[[temp' gn] hn]|e] eqn:E;
      [|discriminate].
    cbn [bind] in H.
    destruct (walk_m_reads_ok _ _ _ E) as [Hle1 Hr1].
    destruct (IH _ H) as [Hle2 Hr2]. cbn [fst] in *.
    split; [lia|]. intros i Hi.
    destruct (Z.lt_ge_cases i temp'); [apply Hr1 | apply Hr2]; lia.
Qed.

(** A walk raises what one of its reads raised. *)
Lemma walk_m_raise (ms : list nat) (st : Z * row * row) (e : py_exn) :
  walk_m rd ms st = Raise e -> exists i, rd i = Raise e.
Proof.
  revert st. induction ms as [|m ms IH]; intros [[temp gn] hn] H; [discriminate|].
  cbn [walk_m] in H. destruct (negb (m =? 0)%nat).
  - destruct (rd temp) as [a|e1] eqn:Ea; [|inversion H; subst; eauto].
    cbn [bind] in H.
    destruct (rd (temp + 1)) as [b|e2] eqn:Eb; [|inversion H; subst; eauto].
    cbn [bind] in H. eapply IH; eassumption.
  - destruct (rd temp) as [a|e1] eqn:Ea; [|inversion H; subst; eauto].
    cbn [bind] in H. eapply IH; eassumption.
Qed.

Lemma walk_n_raise (ns : list nat) (st : Z * list row * list row) (e : py_exn) :
  walk_n rd ns st = Raise e -> exists i, rd i = Raise e.
Proof.
  revert st. induction ns as [|n ns IH]; intros [[temp g] h] H; [discriminate|].
  cbn [walk_n] in H.
  destruct (walk_m rd (seq 0 (n + 1)) _) as [[[temp' gn] hn]|e1] eqn:E.
  - cbn [bind] in H. eapply IH; eassumption.
  - inversion H; subst. eapply walk_m_raise; eassumption.
Qed.

End WalkReads.

Section TableLength.

Import IgrfCoeffs.

Local Open Scope R_scope.

Lemma py_index_raises_index_error {A : Type} (l : list A) (i : Z) (e : py_exn) :
  py_index l i = Raise e -> e = IndexError.
Proof.
  unfold py_index. destruct (_ || _)%bool; [congruence|].
  destruct (nth_error l _); [discriminate | congruence].
Qed.

Lemma py_index_ok_bound {A : Type} (l : list A) (i : Z) (a : A) :
  py_index l i = Ok a -> (- Z.of_nat (length l) <= i < Z.of_nat (length l))%Z.
Proof.
  unfold py_index.
  destruct (Z.ltb_spec i 0);
    destruct (Z.ltb_spec (Z.of_nat (length l) + i) 0);
    destruct (Z.ltb_spec i 0);
    destruct (Z.leb_spec (Z.of_nat (length l)) (Z.of_nat (length l) + i));
    destruct (Z.leb_spec (Z.of_nat (length l)) i);
    cbn [orb]; try discriminate; intros _; lia.
Qed.

Lemma blend_raises_index_error (gh : list R) (r : regime) (i : Z) (e : py_exn) :
  blend gh r i = Raise e -> e = IndexError.
Proof.
  unfold blend.
  destruct (py_index gh i) as [a|e1] eqn:Ea.
  - cbn [bind]. destruct (py_index gh (i + nc r)) as [b|e2] eqn:Eb.
    + discriminate.
    + cbn [bind]. intros H. inversion H; subst.
      eapply py_index_raises_index_error; eassumption.
  - cbn [bind]. intros H. inversion H; subst.
    eapply py_index_raises_index_error; eassumption.
Qed.

(** In an accepted date the block has one value more than [nc], and the
    walk starts at most one place before the table. *)
Lemma select_block (date : R) :
  1900 <= date <= 2030 ->
  let r := snd (select date) in
  (0 <= ll r)%Z /\ (1 <= nc r)%Z
  /\ (Z.of_nat (nmx r + 1) * Z.of_nat (nmx r + 1) = nc r + 1)%Z
  /\ (ll r + 2 * nc r <= 3645)%Z
  /\ (2020 <= date -> (ll r + 2 * nc r = 3645)%Z).
Proof.
  intros Hd. unfold select.
  destruct (Rge_dec date 2020).
  - cbn [snd ll nmx nc]. repeat split; lia.
  - destruct (Rlt_dec date 1995).
    + pose proof (py_int_range (0.2 * (date - 1900)) 19 ltac:(lra)).
      cbn [snd ll nmx nc]. repeat split; try lia. intros; lra.
    + pose proof (py_int_range (0.2 * (date - 1995)) 5 ltac:(lra)).
      cbn [snd ll nmx nc]. repeat split; try lia. intros; lra.
Qed.

(** X3. [get_coeffs] reads two blocks of [nc] values from the start [ll] of
    the block of the date: in an accepted date it returns when the table
    holds [ll + 2 nc] values and raises IndexError when it holds less.
    No date asks for more than 3645 values, and every date from 2020.0
    asks for 3645. *)
Theorem get_coeffs_table_length (gh : list R) (date : R) :
  1900 <= date <= 2030 ->
  let r := snd (select date) in
  ((ll r + 2 * nc r <= Z.of_nat (length gh))%Z ->
     exists g h, snd (get_coeffs gh date) = Ok (g, h))
  /\ ((Z.of_nat (length gh) < ll r + 2 * nc r)%Z ->
     snd (get_coeffs gh date) = Raise IndexError)
  /\ (ll r + 2 * nc r <= 3645)%Z
  /\ (2020 <= date -> (ll r + 2 * nc r = 3645)%Z).
Proof.
  intros Hd r.
  pose proof (select_block date Hd) as Hb. cbv zeta in Hb. fold r in Hb.
  destruct Hb as [Hll [Hnc [Hsq [Hmax H2020]]]].
  assert (Hget : snd (get_coeffs gh date)
                 = (st <- walk_n (blend gh r) (seq 0 (nmx r + 1))
                            ((ll r - 1)%Z, [], []) ;;
                    let '(_, g, h) := st in Ok (g, h))).
  { unfold get_coeffs.
    destruct (Rlt_dec date 1900); [lra|].
    destruct (Rgt_dec date 2030); [lra|].
    subst r. destruct (select date) as [logged r]. reflexivity. }
  split; [|split; [|split; assumption]].
  - intros Hlen. rewrite Hget.
    rewrite (walk_n_rows (blend gh r) (value_of (blend gh r))
               (ll r - 1)%Z
               (ll r - 1 + Z.of_nat (nmx r + 1) * Z.of_nat (nmx r + 1))%Z);
      [ cbn [bind]; eauto | | lia | lia ].
    intros i Hi. apply blend_returns; lia.
  - intros Hshort. rewrite Hget.
    destruct (walk_n (blend gh r) (seq 0 (nmx r + 1)) ((ll r - 1)%Z, [], []))
      as [[[temp g] h]|e] eqn:Ew.
    + exfalso.
      pose proof (walk_n_reads_ok _ _ _ _ Ew) as [_ Hreads].
      pose proof (walk_n_value_of _ _ _ _ Ew) as Hv.
      rewrite (walk_n_rows (fun i => Ok (value_of (blend gh r) i))
                 (value_of (blend gh r)) (ll r - 1)%Z
                 (ll r - 1 + Z.of_nat (nmx r + 1) * Z.of_nat (nmx r + 1))%Z) in Hv;
        [ | reflexivity | lia | lia ].
      inversion Hv; subst temp. cbn [fst] in Hreads.
      destruct (Hreads (ll r - 1 + nc r)%Z ltac:(lia)) as [v Hread].
      unfold blend in Hread.
      destruct (py_index gh (ll r - 1 + nc r)) as [a|]; [|discriminate].
      cbn [bind] in Hread.
      destruct (py_index gh (ll r - 1 + nc r + nc r)) as [b|] eqn:Eb; [|discriminate].
      apply py_index_ok_bound in Eb. lia.
    + cbn [bind]. f_equal.
      destruct (walk_n_raise _ _ _ _ Ew) as [i Hi].
      eapply blend_raises_index_error; eassumption.
Qed.

(** X4. What [get_coeffs] logs: nothing for a date from 1900.0 to 2025.0,
    the two warnings of reduced accuracy for a date above 2025.0 up to
    2030.0, for which it computes all the same, and the three errors
    outside. *)
Theorem get_coeffs_logging (gh : list R) (date : R) :
  (1900 <= date <= 2025 -> fst (get_coeffs gh date) = [])
  /\ (2025 < date <= 2030 ->
      fst (get_coeffs gh date) = reduced_accuracy_log date
      /\ ((3645 <= length gh)%nat ->
          exists g h, snd (get_coeffs gh date) = Ok (g, h) /\ length g = 14%nat))
  /\ (date < 1900 \/ 2030 < date ->
      fst (get_coeffs gh date) = out_of_range_log date).
Proof.
  assert (Hfst : 1900 <= date <= 2030 ->
                 fst (get_coeffs gh date) = fst (select date)).
  { intros Hd. unfold get_coeffs.
    destruct (Rlt_dec date 1900); [lra|].
    destruct (Rgt_dec date 2030); [lra|].
    destruct (select date) as [logged r]. reflexivity. }
  split; [|split].
  - intros Hd. rewrite Hfst by lra. unfold select.
    destruct (Rge_dec date 2020).
    + destruct (Rgt_dec date 2025); [lra | reflexivity].
    + destruct (Rlt_dec date 1995); reflexivity.
  - intros Hd. split.
    + rewrite Hfst by lra. unfold select.
      destruct (Rge_dec date 2020); [|lra].
      destruct (Rgt_dec date 2025); [reflexivity | lra].
    + intros Hlen.
      pose proof (get_coeffs_total gh date ltac:(lra) Hlen) as Hc. cbv zeta in Hc.
      eexists; eexists. split; [exact Hc|].
      rewrite length_map, length_seq, select_nmx.
      destruct (Rlt_dec date 1995); [lra | reflexivity].
  - intros Hd. rewrite get_coeffs_out_of_range by lra. reflexivity.
Qed.

End TableLength.

(** ** load_coeffs: errors and ignored lines *)

Section MoreLoadFacts.

Import IgrfCoeffs.

Variable num : Type.
Variable zero : num.
Variable float_of_string : string -> option num.

(** A loop over a list raises when the body raises on one element. *)
Lemma traverse_raises {A B : Type} (f : A -> result B) (l : list A) (x : A)
      (e : py_exn) :
  In x l -> f x = Raise e ->
  (forall y e', f y = Raise e' -> e' = e) ->
  traverse f l = Raise e.
Proof.
  intros Hin Hx Honly. induction l as [|y l IH]; [contradiction|].
  cbn [traverse]. destruct (f y) as [b|e'] eqn:Ey.
  - cbn [bind]. destruct Hin as [->|Hin]; [congruence|].
    rewrite (IH Hin). reflexivity.
  - cbn [bind]. f_equal. eapply Honly; eassumption.
Qed.

Lemma py_float_raises (x : string) (e : py_exn) :
  py_float float_of_string x = Raise e -> e = ValueError.
Proof.
  unfold py_float. destruct (float_of_string x); [discriminate | congruence].
Qed.

Lemma parse_line_raises (a : string) (e : py_exn) :
  traverse (py_float float_of_string) (skipn 3 (split a)) = Raise e ->
  e = ValueError.
Proof.
  generalize (skipn 3 (split a)). intros l.
  induction l as [|x l IH]; [discriminate|].
  cbn [traverse]. destruct (py_float float_of_string x) as [v|e'] eqn:Ex.
  - cbn [bind]. destruct (traverse _ l) as [vs|e'']; [discriminate|].
    cbn [bind]. intros H. inversion H; subst. apply IH. reflexivity.
  - cbn [bind]. intros H. inversion H; subst.
    eapply py_float_raises; eassumption.
Qed.

(** X5. A value of a coefficient line that is no number makes [load_coeffs]
    raise ValueError: no table is returned, whatever the other lines
    are. The first three tokens of a line are not read as numbers. *)
Theorem load_coeffs_bad_number (text : list string) (a tok : string) :
  In a text -> is_coeff_line a = true ->
  In tok (skipn 3 (split a)) -> float_of_string tok = None ->
  load_coeffs zero float_of_string text = Raise ValueError.
Proof.
  intros Ha Hsel Htok Hbad.
  unfold load_coeffs, parse_lines.
  rewrite (traverse_raises _ (filter is_coeff_line text) a ValueError).
  - reflexivity.
  - apply filter_In. split; assumption.
  - apply (traverse_raises _ _ tok ValueError Htok).
    + unfold py_float. rewrite Hbad. reflexivity.
    + intros y e'. apply py_float_raises.
  - intros y e'. apply parse_line_raises.
Qed.

Lemma filter_nothing {A : Type} (p : A -> bool) (l : list A) :
  forallb (fun a => negb (p a)) l = true -> filter p l = [].
Proof.
  induction l as [|x l IH]; [reflexivity|].
  cbn [forallb filter]. intros H. apply andb_prop in H. destruct H as [Hx Hl].
  destruct (p x); [discriminate|]. apply IH. exact Hl.
Qed.

(** X6. Lines that do not begin with ["g "] or ["h "] are not read: one such
    line more or less changes nothing, and a file without coefficient
    lines gives the table that holds the closing zero alone. *)
Theorem load_coeffs_other_lines (before after : list string) (c : string) :
  is_coeff_line c = false ->
  load_coeffs zero float_of_string (before ++ c :: after)
  = load_coeffs zero float_of_string (before ++ after)
  /\ (forallb (fun a => negb (is_coeff_line a)) (before ++ after) = true ->
      load_coeffs zero float_of_string (before ++ c :: after) = Ok [zero]).
Proof.
  intros Hc.
  assert (Hsame : filter is_coeff_line (before ++ c :: after)
                  = filter is_coeff_line (before ++ after)).
  { rewrite !filter_app. cbn [filter]. rewrite Hc. reflexivity. }
  split.
  - unfold load_coeffs, parse_lines. rewrite Hsame. reflexivity.
  - intros Hnone. unfold load_coeffs, parse_lines. rewrite Hsame.
    rewrite (filter_nothing _ _ Hnone). reflexivity.
Qed.

(** X7. With fewer than 120 coefficient lines (and at least one epoch
    column) the loop over the first epoch reads past the column:
    [load_coeffs] raises IndexError. *)
Theorem load_coeffs_too_few_rows (text : list string) (rows : list (list num))
        (ncols : nat) :
  parse_lines float_of_string text = Ok rows ->
  Forall (fun r => length r = ncols) rows ->
  (0 < ncols)%nat -> (0 < length rows < 120)%nat ->
  load_coeffs zero float_of_string text = Raise IndexError.
Proof.
  intros Hparse Hrect Hcols Hrows.
  unfold load_coeffs. rewrite Hparse. cbn [bind]. unfold flatten_table.
  rewrite (np_transpose_spec num zero rows ncols); [|intros ->; simpl in Hrows; lia|exact Hrect].
  cbn [bind].
  destruct ncols as [|ncols]; [lia|]. cbn [seq map flatten_from].
  unfold emit_epoch. change (0 <? 19)%nat with true. cbv iota.
  rewrite (traverse_raises _ (seq 0 120) (length rows) IndexError).
  - reflexivity.
  - apply in_seq. lia.
  - unfold py_index, column. rewrite length_map.
    destruct (Z.ltb_spec (Z.of_nat (length rows)) 0); [lia|].
    destruct (Z.ltb_spec (Z.of_nat (length rows)) 0); [lia|].
    destruct (Z.leb_spec (Z.of_nat (length rows)) (Z.of_nat (length rows))); [|lia].
    reflexivity.
  - intros y e' Hy. unfold py_index in Hy.
    destruct (_ || _)%bool; [congruence|].
    destruct (nth_error _ _); [discriminate | congruence].
Qed.

End MoreLoadFacts.

(** ** load_coeffs and get_coeffs together *)

Section FileCoefficients.

Import IgrfCoeffs.

Local Open Scope R_scope.

(** The element at place [j] of chunk [i] in a concatenation of chunks
    of one length [c]. *)
Lemma nth_concat_uniform {A : Type} (G : nat -> list A) (c a n i j : nat) (d : A) :
  (forall u, length (G u) = c) ->
  (i < n)%nat -> (j < c)%nat ->
  nth (c * i + j) (concat (map G (seq a n))) d = nth j (G (a + i)%nat) d.
Proof.
  intros Hlen. revert a i. induction n as [|n IH]; intros a i Hi Hj; [lia|].
  cbn [seq map concat].
  destruct i as [|i].
  - rewrite app_nth1 by (rewrite Hlen; lia).
    rewrite Nat.mul_0_r, Nat.add_0_r. reflexivity.
  - rewrite app_nth2 by (rewrite Hlen; nia).
    rewrite Hlen.
    replace (c * S i + j - c)%nat with (c * i + j)%nat by nia.
    rewrite IH by lia. f_equal. f_equal. lia.
Qed.

Lemma length_concat_uniform {A : Type} (G : nat -> list A) (c : nat) (l : list nat) :
  (forall u, length (G u) = c) ->
  length (concat (map G l)) = (c * length l)%nat.
Proof.
  intros Hlen. induction l as [|x l IH]; cbn [map concat length]; [lia|].
  rewrite length_app, IH, Hlen. lia.
Qed.

(** Where the flat table keeps the value of row [j] of epoch column
    [k]: the block of column [k] starts at [120 k] for the first 19
    columns and at [2280 + 195 (k - 19)] for the later ones. *)
Lemma flat_layout_cell (rows : list (list R)) (ncols k j : nat) :
  length rows = 195%nat ->
  (19 <= ncols)%nat -> (k < ncols)%nat ->
  (j < (if (k <? 19)%nat then 120 else 195))%nat ->
  nth ((if (k <? 19)%nat then 120 * k else 2280 + 195 * (k - 19)) + j)
      (flat_layout 0 rows ncols) 0
  = nth j (column 0 rows k) 0.
Proof.
  intros Hrows Hn Hk Hj. unfold flat_layout.
  assert (Hcol : forall u, length (column 0 rows u) = 195%nat).
  { intros u. unfold column. rewrite length_map. exact Hrows. }
  assert (Hfirst : forall u, length (firstn 120 (column 0 rows u)) = 120%nat).
  { intros u. rewrite length_firstn, Hcol. reflexivity. }
  replace (Nat.min 19 ncols) with 19%nat by lia.
  assert (Hlen1 : length (concat (map (fun i => firstn 120 (column 0 rows i))
                                      (seq 0 19))) = 2280%nat).
  { rewrite (length_concat_uniform _ 120) by exact Hfirst.
    rewrite length_seq. reflexivity. }
  destruct (Nat.ltb_spec k 19) as [Hlt|Hge].
  - rewrite app_nth1 by (rewrite Hlen1; lia).
    rewrite (nth_concat_uniform (fun i => firstn 120 (column 0 rows i)) 120)
      by (try exact Hfirst; lia).
    cbn [Nat.add]. rewrite nth_firstn.
    destruct (Nat.ltb_spec j 120); [reflexivity | lia].
  - rewrite app_nth2 by (rewrite Hlen1; lia). rewrite Hlen1.
    replace (2280 + 195 * (k - 19) + j - 2280)%nat
      with (195 * (k - 19) + j)%nat by lia.
    rewrite app_nth1.
    + rewrite (nth_concat_uniform (column 0 rows) 195) by (try exact Hcol; lia).
      f_equal. f_equal. lia.
    + rewrite (length_concat_uniform _ 195) by exact Hcol.
      rewrite length_seq. nia.
Qed.

Lemma flat_table_cell (rows : list (list R)) (k o : Z) :
  length rows = 195%nat ->
  (0 <= k < 26)%Z ->
  (0 <= o < (if (k <? 19)%Z then 120 else 195))%Z ->
  nth (Z.to_nat ((if (k <? 19)%Z then 120 * k else 2280 + 195 * (k - 19)) + o))
      (flat_layout 0 rows 26) 0
  = nth (Z.to_nat o) (column 0 rows (Z.to_nat k)) 0.
Proof.
  intros Hrows Hk Ho.
  rewrite <- (flat_layout_cell rows 26 (Z.to_nat k) (Z.to_nat o) Hrows)
    by (try lia; destruct (Z.ltb_spec k 19); destruct (Nat.ltb_spec (Z.to_nat k) 19); lia).
  f_equal.
  destruct (Z.ltb_spec k 19); destruct (Nat.ltb_spec (Z.to_nat k) 19); lia.
Qed.

(** X8. [load_coeffs] and [get_coeffs] together, on a coefficient file of
    195 lines and 26 columns (the epochs 1900, 1905, ..., 2020 and the
    secular variation): the table has 3646 values; between the epochs
    [1900 + 5 k] and [1900 + 5 (k + 1)], up to 2020.0, the coefficient
    read from line [o] of the file is the linear interpolation of the
    values of that line in the columns [k] and [k + 1]; from 2020.0 on it
    is the value of column 24 plus [date - 2020] times the value of
    column 25. Line [g_offset n m] holds [g[n][m]] and line
    [h_offset n m] holds [h[n][m]]. *)
Theorem file_coefficients (float_of_string : string -> option R)
        (text : list string) (rows : list (list R)) :
  parse_lines float_of_string text = Ok rows ->
  length rows = 195%nat ->
  Forall (fun r => length r = 26%nat) rows ->
  let cell := fun (o k : Z) => nth (Z.to_nat o) (column 0 rows (Z.to_nat k)) 0 in
  exists gh : list R,
    load_coeffs 0 float_of_string text = Ok gh
    /\ length gh = 3646%nat
    /\ (forall (k : Z) (date : R) (n m : nat),
          (0 <= k <= 23)%Z ->
          1900 + 5 * IZR k <= date < 1900 + 5 * (IZR k + 1) ->
          (1 <= n <= (if (k <? 19)%Z then 10 else 13))%nat -> (m <= n)%nat ->
          let w := 0.2 * (date - 1900) - IZR k in
          g_entry gh n m date
          = Ok (Some ((1 - w) * cell (g_offset n m) k
                      + w * cell (g_offset n m) (k + 1)%Z))
          /\ ((1 <= m)%nat ->
              h_entry gh n m date
              = Ok (Some ((1 - w) * cell (h_offset n m) k
                          + w * cell (h_offset n m) (k + 1)%Z))))
    /\ (forall (date : R) (n m : nat),
          2020 <= date <= 2030 ->
          (1 <= n <= 13)%nat -> (m <= n)%nat ->
          g_entry gh n m date
          = Ok (Some (cell (g_offset n m) 24%Z
                      + (date - 2020) * cell (g_offset n m) 25%Z))
          /\ ((1 <= m)%nat ->
              h_entry gh n m date
              = Ok (Some (cell (h_offset n m) 24%Z
                          + (date - 2020) * cell (h_offset n m) 25%Z)))).
Proof.
  intros Hparse Hrows Hrect cell.
  exists (flat_layout 0 rows 26).
  assert (Hlen : length (flat_layout 0 rows 26) = 3646%nat).
  { rewrite flat_layout_length by lia. rewrite Hrows. reflexivity. }
  split.
  { unfold load_coeffs. rewrite Hparse. cbn [bind].
    apply flatten_table_layout; [lia | exact Hrect]. }
  split; [exact Hlen|].
  assert (Hcell : forall (k o : Z), (0 <= k < 26)%Z ->
            (0 <= o < (if (k <? 19)%Z then 120 else 195))%Z ->
            nth (Z.to_nat ((if (k <? 19)%Z then 120 * k
                            else 2280 + 195 * (k - 19)) + o))
                (flat_layout 0 rows 26) 0 = cell o k).
  { intros k o Hk Ho. apply flat_table_cell; assumption. }
  split.
  - intros k date n m Hk Hd Hn Hm w.
    assert (H0 : 0 <= IZR k) by (apply IZR_le; lia).
    assert (H23 : IZR k <= 23) by (apply IZR_le; lia).
    pose proof (entries_blend (flat_layout 0 rows 26) date n m
                  ltac:(lra) ltac:(lia)) as He.
    cbv zeta in He.
    destruct (Z.ltb_spec k 19) as [Hlt|Hge].
    + rewrite (select_interval_before_1995 k date ltac:(lia) Hd) in He.
      cbn [t tc ll nmx nc] in He.
      destruct (offsets_in_degree n m 10 Hn Hm) as [Hg Hh].
      specialize (He Hn Hm).
      assert (Hnow : forall o, (0 <= o < 120)%Z ->
                nth (Z.to_nat (120 * k + o)) (flat_layout 0 rows 26) 0 = cell o k).
      { intros o Ho. rewrite <- Hcell by (try lia; destruct (Z.ltb_spec k 19); lia).
        destruct (Z.ltb_spec k 19); [reflexivity | lia]. }
      assert (Hnext : forall o, (0 <= o < 120)%Z ->
                nth (Z.to_nat (120 * k + o + 120)) (flat_layout 0 rows 26) 0
                = cell o (k + 1)%Z).
      { intros o Ho.
        rewrite <- Hcell by (try lia; destruct (Z.ltb_spec (k + 1) 19); lia).
        f_equal. destruct (Z.ltb_spec (k + 1) 19); lia. }
      rewrite !Hnow, !Hnext in He by (cbn in Hg, Hh; lia).
      exact He.
    + rewrite (select_interval_from_1995 k date ltac:(lia) Hd) in He.
      cbn [t tc ll nmx nc] in He.
      destruct (offsets_in_degree n m 13 Hn Hm) as [Hg Hh].
      specialize (He Hn Hm).
      assert (Hnow : forall o, (0 <= o < 195)%Z ->
                nth (Z.to_nat (2280 + 195 * (k - 19) + o)) (flat_layout 0 rows 26) 0
                = cell o k).
      { intros o Ho. rewrite <- Hcell by (try lia; destruct (Z.ltb_spec k 19); lia).
        destruct (Z.ltb_spec k 19); [lia | reflexivity]. }
      assert (Hnext : forall o, (0 <= o < 195)%Z ->
                nth (Z.to_nat (2280 + 195 * (k - 19) + o + 195))
                    (flat_layout 0 rows 26) 0
                = cell o (k + 1)%Z).
      { intros o Ho.
        rewrite <- Hcell by (try lia; destruct (Z.ltb_spec (k + 1) 19); lia).
        f_equal. destruct (Z.ltb_spec (k + 1) 19); lia. }
      rewrite !Hnow, !Hnext in He by (cbn in Hg, Hh; lia).
      exact He.
  - intros date n m Hd Hn Hm.
    pose proof (entries_blend (flat_layout 0 rows 26) date n m
                  ltac:(lra) ltac:(lia)) as He.
    cbv zeta in He.
    rewrite (select_from_2020 date ltac:(lra)) in He.
    cbn [t tc ll nmx nc] in He.
    destruct (offsets_in_degree n m 13 Hn Hm) as [Hg Hh].
    specialize (He Hn Hm).
    assert (Hnow : forall o, (0 <= o < 195)%Z ->
              nth (Z.to_nat (3255 + o)) (flat_layout 0 rows 26) 0 = cell o 24%Z).
    { intros o Ho. rewrite <- Hcell by (cbn; lia).
      change (24 <? 19)%Z with false. cbv iota.
      replace (3255 + o)%Z with (2280 + 195 * (24 - 19) + o)%Z by lia.
      reflexivity. }
    assert (Hnext : forall o, (0 <= o < 195)%Z ->
              nth (Z.to_nat (3255 + o + 195)) (flat_layout 0 rows 26) 0
              = cell o 25%Z).
    { intros o Ho. rewrite <- Hcell by (cbn; lia).
      change (25 <? 19)%Z with false. cbv iota.
      replace (3255 + o + 195)%Z with (2280 + 195 * (25 - 19) + o)%Z by lia.
      reflexivity. }
    rewrite !Hnow, !Hnext, !Rmult_1_l in He by (cbn in Hg, Hh; lia).
    exact He.
Qed.

End FileCoefficients.

(** ** coord_transforms.py: further properties *)

Section MoreTransformFacts.

Import IgrfCoeffs CoordTransforms.

Local Open Scope R_scope.

Variable GH : list R.
Variable RE_M : R.
Variable pymap3d_geodetic2ecef : vec3 -> vec3.
Variable pymap3d_ecef2geodetic : vec3 -> vec3.

Lemma pole_rejects_year (year : R) :
  year < 1900 \/ year > 2030 ->
  compute_pos_centered_dipole_north_pole GH year = Raise ValueError.
Proof.
  intros Hy. unfold compute_pos_centered_dipole_north_pole.
  rewrite (get_coeffs_out_of_range GH year Hy). reflexivity.
Qed.

(** X9. Outside the years 1900.0 to 2030.0 [get_coeffs] returns empty lists,
    [compute_pos_centered_dipole_north_pole] raises ValueError for them,
    and the error leaves every transform that takes a year, whatever the
    positions are - also when there is none. [cd2geodetic] on Python
    lists raises its TypeError first. *)
Theorem transforms_reject_year (year : R) :
  year < 1900 \/ year > 2030 ->
  compute_pos_centered_dipole_north_pole GH year = Raise ValueError
  /\ (forall geoc : py vec3, ecef2eccdf GH geoc year = Raise ValueError)
  /\ (forall cd : py vec3, eccdf2ecef GH cd year = Raise ValueError)
  /\ (forall (gg : py vec3) (decimals : Z),
        geodetic2cd GH RE_M pymap3d_geodetic2ecef gg decimals year
        = Raise ValueError)
  /\ (forall (cd : py vec3) (decimals : Z),
        cd2geodetic GH RE_M pymap3d_ecef2geodetic cd decimals year
        = match cd with
          | PyList _ => Raise TypeError
          | _ => Raise ValueError
          end).
Proof.
  intros Hy. pose proof (pole_rejects_year year Hy) as Hp.
  split; [exact Hp|].
  split; [intros geoc; unfold ecef2eccdf; rewrite Hp; reflexivity|].
  split; [intros cd; unfold eccdf2ecef; rewrite Hp; reflexivity|].
  split.
  - intros gg decimals. unfold geodetic2cd, ecef2eccdf. rewrite Hp. reflexivity.
  - intros cd decimals. unfold cd2geodetic, eccdf2ecef.
    destruct cd; cbn [bind]; try rewrite Hp; reflexivity.
Qed.

(** X10. [eccdf2ecef] and [ecef2eccdf] of one year undo each other: the
    positions [ecef2eccdf] returns go back to the given ones through
    [eccdf2ecef], and the other way round. *)
Theorem eccdf2ecef_inverts_ecef2eccdf (v : py vec3) (year : R) :
  1900 <= year <= 2030 ->
  (3645 <= length GH)%nat ->
  (cd <- ecef2eccdf GH v year ;; eccdf2ecef GH (NdArray cd) year)
  = Ok (as_arrays v)
  /\ (geoc <- eccdf2ecef GH v year ;; ecef2eccdf GH (NdArray geoc) year)
     = Ok (as_arrays v).
Proof.
  intros Hy Hlen.
  destruct (pole_exists GH year Hy Hlen) as [colat [long Hp]].
  split.
  - rewrite (ecef2eccdf_with_pole GH v year colat long Hp). cbn [bind].
    rewrite (eccdf2ecef_with_pole GH _ year colat long Hp). cbn [as_arrays].
    rewrite map_map. f_equal.
    apply map_id_ext. intros a. apply rotate_cd_geoc_rotate_geoc_cd.
  - rewrite (eccdf2ecef_with_pole GH v year colat long Hp). cbn [bind].
    rewrite (ecef2eccdf_with_pole GH _ year colat long Hp). cbn [as_arrays].
    rewrite map_map. f_equal.
    apply map_id_ext. intros a. apply rotate_geoc_cd_rotate_cd_geoc.
Qed.

(** X11. [ecef2eccdf] and [eccdf2ecef] keep the distance of every position
    from the centre of the Earth, position by position. *)
Theorem rotations_keep_geocentric_distance (v : py vec3) (year : R) :
  1900 <= year <= 2030 ->
  (3645 <= length GH)%nat ->
  exists cd geoc : list vec3,
    ecef2eccdf GH v year = Ok cd
    /\ eccdf2ecef GH v year = Ok geoc
    /\ map norm cd = map norm (as_arrays v)
    /\ map norm geoc = map norm (as_arrays v).
Proof.
  intros Hy Hlen.
  destruct (pole_exists GH year Hy Hlen) as [colat [long Hp]].
  eexists; eexists.
  split; [apply (ecef2eccdf_with_pole GH v year colat long Hp)|].
  split; [apply (eccdf2ecef_with_pole GH v year colat long Hp)|].
  rewrite !map_map.
  split; apply map_ext; intros a.
  - apply norm_rotate_geoc_cd.
  - apply norm_rotate_cd_geoc.
Qed.

(** X12. The dipole axis is the third axis of the dipole frame: the point at
    distance [r] from the centre in the direction
    [compute_pos_centered_dipole_north_pole] returns goes to [(0, 0, r)]
    under [ecef2eccdf], and [eccdf2ecef] sends [(0, 0, r)] to it. *)
Theorem dipole_axis_is_third_axis (year colat long r : R) :
  compute_pos_centered_dipole_north_pole GH year = Ok (colat, long) ->
  ecef2eccdf GH (PyScalar (spherical2ecef (colat, long, r))) year = Ok [(0, 0, r)]
  /\ eccdf2ecef GH (PyScalar (0, 0, r)) year = Ok [spherical2ecef (colat, long, r)].
Proof.
  intros Hp. split.
  - rewrite (ecef2eccdf_with_pole GH _ year colat long Hp). cbn [as_arrays map].
    rewrite rotate_geoc_cd_pole. reflexivity.
  - rewrite (eccdf2ecef_with_pole GH _ year colat long Hp). cbn [as_arrays map].
    rewrite <- (rotate_geoc_cd_pole colat long r) at 1.
    rewrite rotate_cd_geoc_rotate_geoc_cd. reflexivity.
Qed.


(** X14. With [decimals] not negative and no position at the centre of
    the Earth, every latitude [geodetic2cd] returns lies in [[-90, 90]]
    and every longitude in [[-180, 180]], both ends included. At the
    centre [ecef2spherical] divides by the radius 0, which is why the
    geocentric point [pymap3d.geodetic2ecef] gives for each position is
    taken to have a positive distance from it. *)
Theorem geodetic2cd_angles_in_range (gg : py vec3) (decimals : Z) (year : R)
        (out : list vec3) :
  (0 <= decimals)%Z ->
  Forall (fun p : vec3 => 0 < norm (ecef_of_geodetic_km pymap3d_geodetic2ecef p))
         (as_arrays gg) ->
  geodetic2cd GH RE_M pymap3d_geodetic2ecef gg decimals year = Ok out ->
  Forall (fun c : vec3 =>
            -90 <= fst (fst c) <= 90 /\ -180 <= snd (fst c) <= 180) out.
Proof.
  intros Hd _ Hout. unfold geodetic2cd in Hout.
  destruct (ecef2eccdf GH _ year) as [cd|e]; [|discriminate].
  cbn [bind] in Hout. injection Hout as <-.
  apply Forall_forall. intros c Hc. apply in_map_iff in Hc.
  destruct Hc as [[[x y] z] [<- _]].
  unfold cd_of_cartesian, ecef2spherical. cbn [fst snd].
  split.
  - apply (np_round_between _ decimals (-90) 90 Hd).
    pose proof (np_round_between
                  (rad2deg (acos (z / sqrt (x * x + y * y + z * z)))) 2 0 180
                  ltac:(lia) (rad2deg_acos_bound _)) as Hc.
    lra.
  - apply (np_round_between _ 2 (-180) 180 ltac:(lia)).
    apply rad2deg_arctan2_bound.
Qed.

End MoreTransformFacts.

(** ** geodetic2ecef *)

Section Ellipsoid.

Import CoordTransforms.

Local Open Scope R_scope.

Variable RE_M : R.
Variable E_SQ : R.

(** X15. The conversion of the module itself: a position of altitude 0 lies
    on the ellipsoid of semimajor axis [RE_M] and squared eccentricity
    [E_SQ], and the altitude is laid off along the normal of the
    ellipsoid, the unit vector of the geodetic latitude and longitude. *)
Theorem geodetic2ecef_on_ellipsoid (lat lon alt : R) :
  0 < RE_M ->
  0 <= E_SQ < 1 ->
  let s := geodetic2ecef RE_M E_SQ (lat, lon, 0) in
  let p := geodetic2ecef RE_M E_SQ (lat, lon, alt) in
  let x := fst (fst s) in
  let y := snd (fst s) in
  let z := snd s in
  (x * x + y * y) / (RE_M * RE_M) + z * z / (RE_M * RE_M * (1 - E_SQ)) = 1
  /\ p = (x + alt * (cos (deg2rad lat) * cos (deg2rad lon)),
          y + alt * (cos (deg2rad lat) * sin (deg2rad lon)),
          z + alt * sin (deg2rad lat)).
Proof.
  intros Ha He s p x y z.
  unfold x, y, z, p, s, geodetic2ecef. cbn [fst snd].
  pose proof (sin2_cos2' (deg2rad lat)) as H1.
  pose proof (sin2_cos2' (deg2rad lon)) as H2.
  set (s1 := sin (deg2rad lat)) in *. set (c1 := cos (deg2rad lat)) in *.
  set (s2 := sin (deg2rad lon)) in *. set (c2 := cos (deg2rad lon)) in *.
  assert (Hs1 : s1 * s1 <= 1) by nra.
  assert (Hpos : 0 < 1 - E_SQ * s1 ^ 2) by nra.
  assert (Hw : sqrt (1 - E_SQ * s1 ^ 2) * sqrt (1 - E_SQ * s1 ^ 2) = 1 - E_SQ * s1 ^ 2).
  { apply sqrt_sqrt. lra. }
  assert (Hw0 : 0 < sqrt (1 - E_SQ * s1 ^ 2)) by (apply sqrt_lt_R0; exact Hpos).
  set (w := sqrt (1 - E_SQ * s1 ^ 2)) in *.
  split.
  - field_simplify_eq; [|repeat split; lra].
    replace (w ^ 2) with (1 - E_SQ * s1 ^ 2) by (rewrite <- Hw; ring).
    replace (c1 ^ 2) with (1 - s1 ^ 2) by (rewrite <- H1; ring).
    replace (c2 ^ 2) with (1 - s2 ^ 2) by (rewrite <- H2; ring).
    ring.
  - f_equal; [f_equal|]; ring.
Qed.

End Ellipsoid.

(** ** mlon2mlt and subsol *)

Section RemainderFacts.

Local Open Scope R_scope.

(** What is left of a number after the nearest multiple of 360 is taken
    off, as [subsol] does twice. *)
Lemma wrap_360 (x : R) : -180 <= x - 360 * rint (x / 360) <= 180.
Proof.
  pose proof (rint_error (x / 360)) as He.
  unfold Rabs in He. destruct (Rcase_abs (rint (x / 360) - x / 360)); lra.
Qed.

(** The arc sine of a number between [- sin e] and [sin e]. *)
Lemma asin_between (u e : R) :
  0 <= e <= PI / 2 -> - sin e <= u <= sin e -> - e <= asin u <= e.
Proof.
  intros He Hu.
  pose proof (SIN_bound e) as Hb.
  assert (Hu1 : -1 <= u <= 1) by lra.
  pose proof (asin_bound u) as Ha.
  pose proof (sin_asin u Hu1) as Hs.
  split.
  - destruct (Rle_dec (- e) (asin u)) as [H|H]; [exact H|exfalso].
    assert (Hlt : sin (asin u) < sin (- e)).
    { apply sin_increasing_1; lra. }
    rewrite sin_neg in Hlt. lra.
  - destruct (Rle_dec (asin u) e) as [H|H]; [exact H|exfalso].
    assert (Hlt : sin e < sin (asin u)).
    { apply sin_increasing_1; lra. }
    lra.
Qed.

End RemainderFacts.

Section SubsolFacts.

Import Helpers.

Local Open Scope R_scope.

Lemma leap_days_bounds (y : Z) :
  (1601 <= y <= 2100)%Z -> (-99 <= leap_days y <= 28)%Z.
Proof.
  intros [Hlo Hhi]. unfold leap_days.
  assert (H1 : 1601 <= IZR y) by (apply IZR_le; exact Hlo).
  assert (H2 : IZR y <= 2100) by (apply IZR_le; exact Hhi).
  pose proof (Zfloor_bound ((IZR y - 1601) / 4)) as [A1 A2].
  pose proof (Zfloor_bound ((IZR y - 1601) / 100)) as [B1 B2].
  assert (A : (0 <= Zfloor ((IZR y - 1601) / 4) <= 124)%Z).
  { split.
    - apply Zfloor_lub. lra.
    - assert (Zfloor ((IZR y - 1601) / 4) < 125)%Z; [|lia].
      apply lt_IZR. lra. }
  assert (B : (0 <= Zfloor ((IZR y - 1601) / 100))%Z).
  { apply Zfloor_lub. lra. }
  destruct (Z.leb_spec y 1900) as [Hc|Hc].
  - assert (H3 : IZR y <= 1900) by (apply IZR_le; exact Hc).
    assert (A' : (Zfloor ((IZR y - 1601) / 4) < 75)%Z) by (apply lt_IZR; lra).
    assert (B' : (Zfloor ((IZR y - 1601) / 100) < 3)%Z) by (apply lt_IZR; lra).
    lia.
  - lia.
Qed.

(** X16. The subsolar point [subsol] computes for an instant of a year from
    1601 to 2100 lies between the tropics, its latitude within 23.5
    degrees of the equator, and its longitude is wrapped into
    [[-180, 180]]; the calendar fields are those of a date and a time of
    day. *)
Theorem subsol_between_the_tropics (d : datetime) :
  (1601 <= year d <= 2100)%Z ->
  (1 <= tm_yday d <= 366)%Z ->
  (0 <= hour d <= 23)%Z -> (0 <= minute d <= 59)%Z -> (0 <= second d <= 59)%Z ->
  exists sslat sslon : R,
    subsol (PyScalar d) = Ok (PyScalar (sslat, sslon))
    /\ -23.5 <= sslat <= 23.5
    /\ -180 <= sslon <= 180.
Proof.
  intros Hy Hdoy Hh Hm Hs.
  eexists; eexists. split; [|split].
  - unfold subsol, year_in_range. cbn [forallb].
    destruct (Z.leb_spec 1601 (year d)); [|lia].
    destruct (Z.leb_spec (year d) 2100); [|lia].
    cbn [andb]. unfold subsol_point. reflexivity.
  - pose proof (leap_days_bounds (year d) Hy) as [L1 L2].
    apply IZR_le in L1, L2.
    assert (Y1 : -399 <= IZR (year d - 2000)) by (apply IZR_le; lia).
    assert (Y2 : IZR (year d - 2000) <= 100) by (apply IZR_le; lia).
    assert (D1 : 1 <= IZR (tm_yday d)) by (apply IZR_le; lia).
    assert (D2 : IZR (tm_yday d) <= 366) by (apply IZR_le; lia).
    assert (U1 : 0 <= IZR (seconds_of_day d)) by (apply IZR_le; unfold seconds_of_day; lia).
    assert (U2 : IZR (seconds_of_day d) <= 86399) by (apply IZR_le; unfold seconds_of_day; lia).
    set (df := IZR (seconds_of_day d) / 86400 - 1.5 + IZR (tm_yday d)).
    assert (F : -0.5 <= df <= 366.5) by (unfold df; lra).
    set (E := 23.439 - 4e-7 * (df + 365 * IZR (year d - 2000) + IZR (leap_days (year d)))).
    assert (HE : 23 <= E <= 23.5) by (unfold E; lra).
    match goal with |- context [asin (_ * ?u)] => set (sinlm := u) end.
    pose proof PI_RGT_0 as Hpi.
    assert (He : 0 <= deg2rad E <= PI / 2).
    { unfold deg2rad. split; [apply Rmult_le_pos; [lra|] | ].
      - apply Rlt_le, Rdiv_lt_0_compat; lra.
      - nra. }
    assert (Hsin : 0 <= sin (deg2rad E)).
    { apply sin_ge_0; lra. }
    assert (Hlm : -1 <= sinlm <= 1) by apply SIN_bound.
    pose proof (asin_between (sin (deg2rad E) * sinlm) (deg2rad E) He ltac:(nra)) as Ha.
    assert (Hk : 0 < 180 / PI) by (apply Rdiv_lt_0_compat; lra).
    assert (Hdeg : rad2deg (deg2rad E) = E) by apply rad2deg_deg2rad.
    assert (Hmono : forall a b, a <= b -> rad2deg a <= rad2deg b).
    { intros a b Hab. unfold rad2deg. apply Rmult_le_compat_r; lra. }
    pose proof (Hmono _ _ (proj1 Ha)) as M1.
    pose proof (Hmono _ _ (proj2 Ha)) as M2.
    replace (rad2deg (- deg2rad E)) with (- rad2deg (deg2rad E)) in M1
      by (unfold rad2deg; ring).
    rewrite Hdeg in M1, M2.
    lra.
  - apply wrap_360.
Qed.

(** X17. [subsol] checks the years of all instants before it computes
    anything: one instant of a year before 1601 or after 2100 makes it
    raise ValueError for the whole array, and for a [datetime] of such a
    year. *)
Theorem subsol_rejects_year (d : datetime) (ds : list datetime) :
  In d ds ->
  (year d < 1601 \/ 2100 < year d)%Z ->
  subsol (NdArray ds) = Raise ValueError
  /\ subsol (PyScalar d) = Raise ValueError.
Proof.
  intros Hin Hy.
  assert (Hd : year_in_range d = false).
  { unfold year_in_range.
    destruct (Z.leb_spec 1601 (year d)); destruct (Z.leb_spec (year d) 2100);
      try reflexivity; lia. }
  split.
  - unfold subsol.
    destruct (forallb year_in_range ds) eqn:Hall; [|reflexivity].
    rewrite forallb_forall in Hall. rewrite (Hall d Hin) in Hd. discriminate.
  - unfold subsol. cbn [forallb]. rewrite Hd. reflexivity.
Qed.

End SubsolFacts.

Section MltFacts.

Import IgrfCoeffs CoordTransforms.

Local Open Scope R_scope.

Variable GH : list R.
Variable RE_M : R.
Variable pymap3d_geodetic2ecef : vec3 -> vec3.

(** X19. [mlon2mlt] takes one instant only: on an array of [datetime64] that
    does not hold exactly one instant it raises, TypeError from [float]
    when the years are all from 1601 to 2100 and the ValueError of
    [subsol] otherwise, whatever the longitudes are; a Python list of
    instants is the ValueError of [subsol]. *)
Theorem mlon2mlt_one_instant_only (mlon_cd : py R) (ds : list Helpers.datetime)
        (ssheight : R) :
  length ds <> 1%nat ->
  mlon2mlt GH RE_M pymap3d_geodetic2ecef mlon_cd (NdArray ds) ssheight
  = (if forallb Helpers.year_in_range ds then Raise TypeError else Raise ValueError)
  /\ mlon2mlt GH RE_M pymap3d_geodetic2ecef mlon_cd (PyList ds) ssheight
     = Raise ValueError.
Proof.
  intros Hlen. split; [|reflexivity].
  unfold mlon2mlt, Helpers.subsol.
  destruct (forallb Helpers.year_in_range ds); [|reflexivity].
  cbn [bind to_float].
  destruct ds as [|a [|b ds]]; cbn [map]; try reflexivity.
  contradiction Hlen. reflexivity.
Qed.

End MltFacts.

(** ** ecef2spherical and spherical2ecef *)

Section SphericalRoundTrip.

Import CoordTransforms.

Local Open Scope R_scope.




End SphericalRoundTrip.

(** ** get_coeffs: the row of degree 0 *)

Section RowZero.

Import IgrfCoeffs.

Local Open Scope R_scope.

Lemma select_first_block (date : R) :
  1900 <= date <= 2030 ->
  (ll (snd (select date)) = 0%Z <-> date < 1905).
Proof.
  intros Hd. unfold select.
  destruct (Rge_dec date 2020) as [H20|H20].
  - cbn [snd ll]. split; [lia | lra].
  - destruct (Rlt_dec date 1995) as [H95|H95]; cbn [snd ll].
    + destruct (Rlt_dec date 1905) as [H05|H05].
      * rewrite (py_int_eq 0 (0.2 * (date - 1900))) by lra.
        split; [intros _; exact H05 | reflexivity].
      * assert (1 <= py_int (0.2 * (date - 1900)))%Z.
        { unfold py_int. destruct (Rle_dec 0 (0.2 * (date - 1900))); [|lra].
          apply Zfloor_lub. lra. }
        split; [lia | lra].
    + assert (0 <= py_int (0.2 * (date - 1995)))%Z.
      { unfold py_int. destruct (Rle_dec 0 (0.2 * (date - 1995))); [|lra].
        apply Zfloor_lub. lra. }
      split; [lia | lra].
Qed.

(** X21. The walk of [get_coeffs] starts one place before the block of the
    date, at [temp = ll - 1], and spends that place on the row of degree
    0: [g[0]] is [[None, v]] and [h[0]] is [[None]], and [v] is no
    coefficient of the date but the blend of the values at [ll - 1] and
    [ll - 1 + nc]. Before 1905.0, where [ll = 0], the index [-1] is the
    last element of the table, the 0 that [load_coeffs] appended. *)
Theorem get_coeffs_row_of_degree_0 (gh : list R) (date : R) :
  1900 <= date <= 2030 ->
  (3645 <= length gh)%nat ->
  let r := snd (select date) in
  let before := if (ll r =? 0)%Z then (length gh - 1)%nat else Z.to_nat (ll r - 1) in
  g_entry gh 0 0 date = Ok None
  /\ h_entry gh 0 0 date = Ok None
  /\ g_entry gh 0 1 date
     = Ok (Some (tc r * nth before gh 0
                 + t r * nth (Z.to_nat (ll r - 1 + nc r)) gh 0))
  /\ h_entry gh 0 1 date = Raise IndexError
  /\ (ll r = 0%Z <-> date < 1905).
Proof.
  intros Hd Hlen r before.
  pose proof (get_coeffs_total gh date Hd Hlen) as Hc. cbv zeta in Hc. fold r in Hc.
  pose proof (select_bounds date Hd) as Hb. cbv zeta in Hb. fold r in Hb.
  destruct Hb as [Hll [Hnc Hend]].
  assert (Hk : (0 < nmx r + 1)%nat) by lia.
  destruct (rows_degree0 (value_of (blend gh r)) (ll r - 1) (nmx r + 1) Hk) as [Hg0 Hh0].
  assert (Hsq : (1 <= Z.of_nat (nmx r + 1) * Z.of_nat (nmx r + 1))%Z) by nia.
  split; [|split; [|split; [|split]]].
  - unfold g_entry. rewrite Hc. cbn [bind fst]. unfold entry.
    change (Z.of_nat 0) with 0%Z. rewrite Hg0. reflexivity.
  - unfold h_entry. rewrite Hc. cbn [bind snd]. unfold entry.
    change (Z.of_nat 0) with 0%Z. rewrite Hh0. reflexivity.
  - unfold g_entry. rewrite Hc. cbn [bind fst]. unfold entry.
    change (Z.of_nat 0) with 0%Z. rewrite Hg0. cbn [bind].
    change (py_index [None; Some (value_of (blend gh r) (ll r - 1)%Z)] (Z.of_nat 1))
      with (Ok (A := option R) (Some (value_of (blend gh r) (ll r - 1)%Z))).
    do 2 f_equal. unfold value_of, before.
    destruct (Z.eqb_spec (ll r) 0) as [E|E].
    + rewrite E. unfold blend. change (0 - 1)%Z with (-1)%Z.
      rewrite (py_index_minus_one gh 0) by (destruct gh; [cbn in Hlen; lia | discriminate]).
      cbn [bind].
      rewrite (py_index_Z gh (-1 + nc r) 0) by lia.
      reflexivity.
    + rewrite blend_inside by lia. reflexivity.
  - unfold h_entry. rewrite Hc. cbn [bind snd]. unfold entry.
    change (Z.of_nat 0) with 0%Z. rewrite Hh0. reflexivity.
  - apply select_first_block. exact Hd.
Qed.

End RowZero.

(** ** cd2geodetic: the point it hands to pymap3d *)

Section BackFacts.

Import IgrfCoeffs CoordTransforms.

Local Open Scope R_scope.

Variable GH : list R.
Variable RE_M : R.
Variable pymap3d_ecef2geodetic : vec3 -> vec3.

Lemma norm_spherical2ecef (colat long r : R) :
  norm (spherical2ecef (colat, long, r)) = Rabs r.
Proof.
  unfold norm, spherical2ecef.
  pose proof (sin2_cos2' colat) as H1. pose proof (sin2_cos2' long) as H2.
  rewrite <- sqrt_Rsqr_abs. f_equal. unfold Rsqr.
  set (s1 := sin colat) in *. set (c1 := cos colat) in *.
  set (s2 := sin long) in *. set (c2 := cos long) in *.
  nsatz.
Qed.

(** X22. [cd2geodetic] reads the dipole altitude as a geocentric distance
    less [RE_M]: the point it hands to [pymap3d.ecef2geodetic] lies at
    the distance [|alt_cd + RE_M|] from the centre of the Earth,
    whatever the dipole latitude and longitude and the year. *)
Theorem cd2geodetic_geocentric_distance (cd : py vec3) (decimals : Z) (year : R) :
  1900 <= year <= 2030 ->
  (3645 <= length GH)%nat ->
  (forall l, cd <> PyList l) ->
  exists geoc : list vec3,
    cd2geodetic GH RE_M pymap3d_ecef2geodetic cd decimals year
    = Ok (map (fun v => round3 decimals (pymap3d_ecef2geodetic v)) geoc)
    /\ map norm geoc = map (fun p : vec3 => Rabs (snd p + RE_M)) (as_arrays cd).
Proof.
  intros Hy Hlen Hnl.
  destruct (pole_exists GH year Hy Hlen) as [colat [long Hp]].
  exists (map (fun p => rotate_cd_geoc colat long (cartesian_of_cd RE_M p)) (as_arrays cd)).
  split.
  - rewrite (cd2geodetic_with_pole GH RE_M pymap3d_ecef2geodetic cd decimals
               year colat long Hp Hnl).
    rewrite map_map. reflexivity.
  - rewrite map_map. apply map_ext. intros [[lat lon] alt].
    rewrite norm_rotate_cd_geoc. unfold cartesian_of_cd. cbn [snd].
    apply norm_spherical2ecef.
Qed.

End BackFacts.

(** ** The further properties on the example data *)

Section MoreWitnesses.

Import IgrfCoeffs CoordTransforms.

Local Open Scope R_scope.

Lemma table_holds_all : (3645 <= length Examples.table)%nat.
Proof. rewrite table_length. lia. Qed.

Lemma pole_of_example :
  exists colat long : R,
    compute_pos_centered_dipole_north_pole Examples.table 2021 = Ok (colat, long).
Proof. apply pole_exists; [lra | exact table_holds_all]. Qed.

Lemma get_coeffs_interpolation_witness :
  g_entry Examples.table 1 0 1902.5
  = Ok (Some ((1 - (0.2 * (1902.5 - 1900) - 0)) * 1
              + (0.2 * (1902.5 - 1900) - 0) * 121)).
Proof.
  destruct (get_coeffs_interpolation Examples.table 1902.5 0) as [_ H].
  - exact table_holds_all.
  - lia.
  - lra.
  - destruct (H 1%nat 0%nat) as [Hg _]; [cbn; lia | lia |].
    rewrite Hg.
    change (Z.to_nat ((if (0 <? 19)%Z then (120 * 0)%Z else (2280 + 195 * (0 - 19))%Z)
                      + g_offset 1 0)) with 0%nat.
    change (Z.to_nat ((if (0 <? 19)%Z then (120 * 0)%Z else (2280 + 195 * (0 - 19))%Z)
                      + g_offset 1 0 + (if (0 <? 19)%Z then 120 else 195)%Z))
      with 120%nat.
    rewrite !table_nth by lia. reflexivity.
Defined.

Lemma get_coeffs_triangular_witness :
  exists g h : list row,
    snd (get_coeffs Examples.table 2021) = Ok (g, h)
    /\ length g = 14%nat /\ length h = 14%nat
    /\ exists v, py_index g 0 = Ok [None; Some v].
Proof.
  pose proof (get_coeffs_total Examples.table 2021 ltac:(lra) table_holds_all) as Hc.
  cbv zeta in Hc.
  destruct (get_coeffs_triangular Examples.table 2021 _ _ ltac:(lra) Hc)
    as [Hg [Hh [H0 _]]].
  destruct (Rlt_dec 2021 1995) as [Hlt|_]; [lra|].
  eexists; eexists. split; [exact Hc|].
  split; [exact Hg|]. split; [exact Hh | exact H0].
Defined.

Lemma get_coeffs_table_length_witness :
  snd (get_coeffs [] 2021) = Raise IndexError.
Proof.
  destruct (get_coeffs_table_length [] 2021 ltac:(lra)) as [_ [Hshort _]].
  apply Hshort. rewrite select_from_2020 by lra. cbn. lia.
Defined.

Lemma get_coeffs_logging_witness :
  fst (get_coeffs Examples.table 2026) = reduced_accuracy_log 2026
  /\ fst (get_coeffs Examples.table 2021) = [].
Proof.
  destruct (get_coeffs_logging Examples.table 2026) as [_ [Hwarn _]].
  destruct (get_coeffs_logging Examples.table 2021) as [Hquiet _].
  split.
  - apply Hwarn. lra.
  - apply Hquiet. lra.
Defined.

Lemma get_coeffs_row_of_degree_0_witness :
  g_entry Examples.table 0 1 1902.5
  = Ok (Some ((1 - (0.2 * (1902.5 - 1900) - 0)) * 3646
              + (0.2 * (1902.5 - 1900) - 0) * 120)).
Proof.
  destruct (get_coeffs_row_of_degree_0 Examples.table 1902.5 ltac:(lra)
              table_holds_all) as [_ [_ [Hg _]]].
  rewrite Hg.
  rewrite (select_interval_before_1995 0 1902.5) by (try lia; lra).
  cbn [t tc ll nc]. rewrite table_length.
  change (if (120 * 0 =? 0)%Z then (3646 - 1)%nat else Z.to_nat (120 * 0 - 1))
    with 3645%nat.
  change (Z.to_nat (120 * 0 - 1 + 120)) with 119%nat.
  rewrite !table_nth by lia. reflexivity.
Defined.

Lemma load_coeffs_bad_number_witness :
  load_coeffs 0%Z Examples.digit [Examples.line; Examples.bad_line]
  = Raise ValueError.
Proof.
  apply (load_coeffs_bad_number Z 0%Z Examples.digit
           [Examples.line; Examples.bad_line] Examples.bad_line "x").
  - right. left. reflexivity.
  - reflexivity.
  - vm_compute. right. right. left. reflexivity.
  - reflexivity.
Defined.

Lemma load_coeffs_other_lines_witness :
  load_coeffs 0%Z Examples.digit (Examples.header :: repeat Examples.line 120)
  = load_coeffs 0%Z Examples.digit (repeat Examples.line 120).
Proof.
  destruct (load_coeffs_other_lines Z 0%Z Examples.digit []
              (repeat Examples.line 120) Examples.header) as [Hsame _].
  - reflexivity.
  - exact Hsame.
Defined.

Lemma load_coeffs_too_few_rows_witness :
  load_coeffs 0%Z Examples.digit [Examples.line] = Raise IndexError.
Proof.
  apply (load_coeffs_too_few_rows Z 0%Z Examples.digit [Examples.line]
           [Examples.parsed_row] 20).
  - vm_compute. reflexivity.
  - repeat constructor.
  - lia.
  - cbn. lia.
Defined.

Lemma wide_rows_parsed :
  parse_lines Examples.real_digit Examples.wide_text = Ok Examples.wide_rows.
Proof. vm_compute. reflexivity. Qed.

Lemma wide_rows_shape :
  length Examples.wide_rows = 195%nat
  /\ Forall (fun r : list R => length r = 26%nat) Examples.wide_rows.
Proof.
  split; [apply repeat_length|].
  apply Forall_forall. intros r Hr. apply repeat_spec in Hr. subst r. reflexivity.
Qed.

Lemma file_coefficients_witness :
  exists gh : list R,
    load_coeffs 0 Examples.real_digit Examples.wide_text = Ok gh
    /\ length gh = 3646%nat
    /\ g_entry gh 1 0 2021
       = Ok (Some (nth 0 (column 0 Examples.wide_rows 24) 0
                   + (2021 - 2020) * nth 0 (column 0 Examples.wide_rows 25) 0)).
Proof.
  destruct (file_coefficients Examples.real_digit Examples.wide_text
              Examples.wide_rows wide_rows_parsed
              (proj1 wide_rows_shape) (proj2 wide_rows_shape))
    as [gh [Hload [Hlen [_ Hlate]]]].
  exists gh. split; [exact Hload|]. split; [exact Hlen|].
  destruct (Hlate 2021 1%nat 0%nat) as [Hg _]; [lra | lia | lia |].
  exact Hg.
Defined.

Lemma transforms_reject_year_witness :
  geodetic2cd Examples.table Examples.RE_M
    (geodetic2ecef Examples.RE_M Examples.E_SQ) (PyScalar (0, 0, 0)) 2 1899
  = Raise ValueError.
Proof.
  destruct (transforms_reject_year Examples.table Examples.RE_M
              (geodetic2ecef Examples.RE_M Examples.E_SQ) Examples.same_point 1899)
    as [_ [_ [_ [Hcd _]]]].
  - left. lra.
  - apply Hcd.
Defined.

Lemma eccdf2ecef_inverts_ecef2eccdf_witness :
  (cd <- ecef2eccdf Examples.table (PyList [(1, 2, 3)]) 2021 ;;
   eccdf2ecef Examples.table (NdArray cd) 2021)
  = Ok [(1, 2, 3)].
Proof.
  destruct (eccdf2ecef_inverts_ecef2eccdf Examples.table (PyList [(1, 2, 3)]) 2021)
    as [Hback _].
  - lra.
  - exact table_holds_all.
  - exact Hback.
Defined.

Lemma rotations_keep_geocentric_distance_witness :
  exists cd : list vec3,
    ecef2eccdf Examples.table (PyScalar (1, 2, 3)) 2021 = Ok cd
    /\ map norm cd = [norm (1, 2, 3)].
Proof.
  destruct (rotations_keep_geocentric_distance Examples.table (PyScalar (1, 2, 3)) 2021)
    as [cd [geoc [Hcd [_ [Hn _]]]]].
  - lra.
  - exact table_holds_all.
  - exists cd. split; [exact Hcd | exact Hn].
Defined.

Lemma dipole_axis_is_third_axis_witness :
  exists colat long : R,
    compute_pos_centered_dipole_north_pole Examples.table 2021 = Ok (colat, long)
    /\ ecef2eccdf Examples.table (PyScalar (spherical2ecef (colat, long, 1))) 2021
       = Ok [(0, 0, 1)].
Proof.
  destruct pole_of_example as [colat [long Hp]].
  exists colat, long. split; [exact Hp|].
  exact (proj1 (dipole_axis_is_third_axis Examples.table 2021 colat long 1 Hp)).
Defined.


Lemma geodetic2cd_angles_in_range_witness :
  exists out : list vec3,
    geodetic2cd Examples.table Examples.RE_M
      (geodetic2ecef Examples.RE_M Examples.E_SQ) (PyScalar (0, 0, 0)) 2 2021
    = Ok out
    /\ Forall (fun c : vec3 =>
                 -90 <= fst (fst c) <= 90 /\ -180 <= snd (fst c) <= 180) out.
Proof.
  destruct pole_of_example as [colat [long Hp]].
  pose proof (geodetic2cd_with_pole Examples.table Examples.RE_M
                (geodetic2ecef Examples.RE_M Examples.E_SQ)
                (PyScalar (0, 0, 0)) 2 2021 colat long Hp) as Hout.
  eexists. split; [exact Hout|].
  apply (geodetic2cd_angles_in_range Examples.table Examples.RE_M
           (geodetic2ecef Examples.RE_M Examples.E_SQ)
           (PyScalar (0, 0, 0)) 2 2021 _ ltac:(lia)); [|exact Hout].
  cbn [as_arrays]. repeat constructor.
  unfold ecef_of_geodetic_km. rewrite geodetic2ecef_origin.
  unfold norm, Examples.RE_M.
  replace (6378137 * 6378137 + 0 * 0 + 0 * 0) with (6378137 * 6378137) by ring.
  rewrite sqrt_square; lra.
Defined.

Lemma cd2geodetic_geocentric_distance_witness :
  exists geoc : list vec3,
    cd2geodetic Examples.table Examples.RE_M Examples.same_point
      (PyScalar (10, 20, 30)) 3 2021
    = Ok (map (fun v => round3 3 (Examples.same_point v)) geoc)
    /\ map norm geoc = [Rabs (30 + Examples.RE_M)].
Proof.
  destruct (cd2geodetic_geocentric_distance Examples.table Examples.RE_M
              Examples.same_point (PyScalar (10, 20, 30)) 3 2021)
    as [geoc [Hout Hn]].
  - lra.
  - exact table_holds_all.
  - intros l. discriminate.
  - exists geoc. split; [exact Hout | exact Hn].
Defined.

Lemma geodetic2ecef_on_ellipsoid_witness :
  let s := geodetic2ecef Examples.RE_M Examples.E_SQ (45, 10, 0) in
  (fst (fst s) * fst (fst s) + snd (fst s) * snd (fst s))
  / (Examples.RE_M * Examples.RE_M)
  + snd s * snd s / (Examples.RE_M * Examples.RE_M * (1 - Examples.E_SQ)) = 1.
Proof.
  destruct (geodetic2ecef_on_ellipsoid Examples.RE_M Examples.E_SQ 45 10 100)
    as [Hon _].
  - unfold Examples.RE_M. lra.
  - unfold Examples.E_SQ. lra.
  - exact Hon.
Defined.


Lemma subsol_between_the_tropics_witness :
  exists sslat sslon : R,
    Helpers.subsol (PyScalar Examples.noon) = Ok (PyScalar (sslat, sslon))
    /\ -23.5 <= sslat <= 23.5
    /\ -180 <= sslon <= 180.
Proof.
  apply (subsol_between_the_tropics Examples.noon); cbn; lia.
Defined.

Lemma subsol_rejects_year_witness :
  Helpers.subsol (NdArray [Examples.noon; Examples.too_early]) = Raise ValueError.
Proof.
  destruct (subsol_rejects_year Examples.too_early
              [Examples.noon; Examples.too_early]) as [Harr _].
  - right. left. reflexivity.
  - left. cbn. lia.
  - exact Harr.
Defined.

Lemma mlon2mlt_one_instant_only_witness :
  mlon2mlt Examples.table Examples.RE_M
    (geodetic2ecef Examples.RE_M Examples.E_SQ)
    (PyScalar 10.12) (NdArray [Examples.noon; Examples.noon]) default_ssheight
  = Raise TypeError.
Proof.
  destruct (mlon2mlt_one_instant_only Examples.table Examples.RE_M
              (geodetic2ecef Examples.RE_M Examples.E_SQ)
              (PyScalar 10.12) [Examples.noon; Examples.noon] default_ssheight)
    as [Harr _].
  - cbn. lia.
  - exact Harr.
Defined.

End MoreWitnesses.
